(** * python-fakturoid helpers: a shallow embedding of [fakturoid/utils.py]

    The helper functions of [utils.py] are translated into Rocq functions
    over a small state-and-exception monad.  The Fakturoid API client, the
    [requests] HTTP library and [time.sleep] are the environment: the client
    is an interface (a record of operations over an abstract session state),
    the HTTP server is a stream of replies, and every call that leaves the
    process is recorded in a log so that statements such as "no further
    request is issued" can be read off the final world. *)

From Stdlib Require Import Ascii.
From stdpp Require Import gmap strings list fin_maps pretty.

Local Open Scope Z_scope.

(** ** Python values *)

(** The values that travel through the [Dict[str, Any]] arguments.  A
    [dict] value is the list of its items in insertion order.  Floats and
    [Decimal]s are left out: no function modelled here computes with
    them. *)
#[warnings="-register-all"]
Inductive PyValue : Type :=
| PyNone
| PyBool (b : bool)
| PyInt (z : Z)
| PyStr (s : string)
| PyList (items : list PyValue)
| PyDict (items : list (string * PyValue)).

(** Truth value testing ([if x:], [not x]). *)
Definition truthy (v : PyValue) : bool :=
  match v with
  | PyNone => false
  | PyBool b => b
  | PyInt z => negb (z =? 0)
  | PyStr s => negb (String.eqb s "")
  | PyList items => match items with [] => false | _ => true end
  | PyDict items => match items with [] => false | _ => true end
  end.

(** The [==] operator.  [bool] is a subclass of [int], so [True == 1]; two
    dicts are equal when they have the same keys with equal values, in
    whatever order. *)
Fixpoint py_eq (a b : PyValue) : bool :=
  match a, b with
  | PyNone, PyNone => true
  | PyBool x, PyBool y => Bool.eqb x y
  | PyBool x, PyInt y | PyInt y, PyBool x => Z.b2z x =? y
  | PyInt x, PyInt y => x =? y
  | PyStr x, PyStr y => String.eqb x y
  | PyList xs, PyList ys =>
      (fix go (xs ys : list PyValue) : bool :=
         match xs, ys with
         | [], [] => true
         | x :: xs', y :: ys' => py_eq x y && go xs' ys'
         | _, _ => false
         end) xs ys
  | PyDict xs, PyDict ys =>
      Nat.eqb (length xs) (length ys)
      && (fix every (xs : list (string * PyValue)) : bool :=
            match xs with
            | [] => true
            | (k, x) :: xs' =>
                (fix find (ys : list (string * PyValue)) : bool :=
                   match ys with
                   | [] => false
                   | (k', y) :: ys' => if String.eqb k k' then py_eq x y else find ys'
                   end) ys
                && every xs'
            end) xs
  | _, _ => false
  end.

(** A [dict] with string keys.  [d.get(k)] is [dict_get], [d.get(k, dflt)]
    is [dict_get_default] and [d[k]] is [dict_item], which raises
    [KeyError]. *)
Abbreviation Dict := (gmap string PyValue).

Definition dict_get (d : Dict) (k : string) : PyValue :=
  default PyNone (d !! k).

Definition dict_get_default (d : Dict) (k : string) (dflt : PyValue) : PyValue :=
  default dflt (d !! k).

(** ** HTTP responses and exceptions *)

Record Response : Type := mkResponse {
  status_code : Z;
  content : list Byte.byte
}.

Inductive Exception : Type :=
| KeyError (key : string)
| IndexError (msg : string)
| ValueError (msg : string)
| TypeError (msg : string)
| AttributeError (msg : string)
| HTTPError (response : Response)
| LibraryError (name msg : string).

Definition is_ValueError (e : Exception) : bool :=
  match e with ValueError _ => true | _ => false end.

Definition is_HTTPError (e : Exception) : bool :=
  match e with HTTPError _ => true | _ => false end.

(** The result of running Python code: a value or a raised exception. *)
Inductive Res (A : Type) : Type :=
| Ok (a : A)
| Raise (e : Exception).
Arguments Ok {A} a.
Arguments Raise {A} e.

Definition raises_ValueError {A} (r : Res A) : bool :=
  match r with Raise e => is_ValueError e | Ok _ => false end.

Definition dict_item (d : Dict) (k : string) : Res PyValue :=
  match d !! k with
  | Some v => Ok v
  | None => Raise (KeyError k)
  end.

(** [Response.raise_for_status] of the [requests] library: it raises
    [HTTPError] for the client-error (4xx) and server-error (5xx) status
    codes and returns [None] for every other code. *)
Definition raise_for_status (r : Response) : Res unit :=
  if (400 <=? status_code r) && (status_code r <? 600)
  then Raise (HTTPError r)
  else Ok tt.

(** [str.format] restricted to what the source uses: automatically numbered
    [{}] fields, each replaced by the next positional argument (already
    converted with [str]).  Running out of arguments is an [IndexError]. *)
Fixpoint py_format (template : string) (args : list string) : Res string :=
  match template with
  | EmptyString => Ok EmptyString
  | String "{"%char (String "}"%char rest) =>
      match args with
      | [] => Raise (IndexError "Replacement index out of range for positional args tuple")
      | a :: args' =>
          match py_format rest args' with
          | Ok s => Ok (a +:+ s)
          | Raise e => Raise e
          end
      end
  | String c rest =>
      match py_format rest args with
      | Ok s => Ok (String c s)
      | Raise e => Raise e
      end
  end.

(** [str(n)] for an [int]. *)
Definition str_of_int (n : Z) : string := pretty n.

(** ** Objects of the API client *)

(** An object with dynamic attribute access ([hasattr], [setattr]).  The
    [Invoice] class is the client library's; an invoice is taken as an
    instance of a plain Python class (no [__slots__], no properties, no
    [__setattr__] of its own): the names found on its class, which are its
    methods and class attributes, and the instance [__dict__]. *)
Record Obj : Type := mkObj {
  class_names : gset string;
  attrs : gmap string PyValue
}.

(** The attributes every such object has through data descriptors of its
    type: they are found whatever the instance [__dict__] holds, and
    setting them does not store into it. *)
Definition special_attribute (name : string) : bool :=
  String.eqb name "__dict__" || String.eqb name "__class__"
  || String.eqb name "__weakref__".

Definition hasattr (o : Obj) (name : string) : bool :=
  special_attribute name
  || bool_decide (name ∈ class_names o)
  || bool_decide (is_Some (attrs o !! name)).

(** [type(v).__name__], for the messages below. *)
Definition type_name (v : PyValue) : string :=
  match v with
  | PyNone => "NoneType"
  | PyBool _ => "bool"
  | PyInt _ => "int"
  | PyStr _ => "str"
  | PyList _ => "list"
  | PyDict _ => "dict"
  end.

(** The mapping a [dict] value stands for: a later item replaces an
    earlier one with the same key. *)
Definition dict_of_items (items : list (string * PyValue)) : gmap string PyValue :=
  foldl (λ m item, <[item.1 := item.2]> m) ∅ items.

(** [setattr(o, name, v)].  [__dict__] takes a dictionary, which becomes
    the instance [__dict__] in place of the old one, and nothing else;
    [__class__] takes a class, which no value here is; [__weakref__] is
    read-only.  Any other name is stored in the instance [__dict__]. *)
Definition setattr (o : Obj) (name : string) (v : PyValue) : Res Obj :=
  if String.eqb name "__dict__" then
    match v with
    | PyDict items => Ok (mkObj (class_names o) (dict_of_items items))
    | _ =>
        Raise (TypeError ("__dict__ must be set to a dictionary, not a '"
                            +:+ type_name v +:+ "'"))
    end
  else if String.eqb name "__class__" then
    Raise (TypeError ("__class__ must be set to a class, not '"
                        +:+ type_name v +:+ "' object"))
  else if String.eqb name "__weakref__" then
    Raise (AttributeError "attribute '__weakref__' of 'Invoice' objects is not writable")
  else Ok (mkObj (class_names o) (<[name := v]> (attrs o))).

(** [InvoiceLine(...)]: the keyword arguments of the constructor call. *)
Module InvoiceLine.
Record t : Type := mk {
  id : PyValue;
  name : PyValue;
  quantity : PyValue;
  unit_name : PyValue;
  unit_price : PyValue;
  vat_rate : PyValue;
  unit_price_without_vat : PyValue;
  unit_price_with_vat : PyValue;
  total_price_without_vat : PyValue;
  total_vat : PyValue;
  native_total_price_without_vat : PyValue;
  native_total_vat : PyValue;
  inventory_item_id : PyValue;
  sku : PyValue;
  inventory : PyValue
}.
End InvoiceLine.

(** [Subject(...)]: the keyword arguments of the constructor call.  A
    subject returned by the API carries the same fields. *)
Module Subject.
Record t : Type := mk {
  custom_id : PyValue;
  type : PyValue;
  name : PyValue;
  full_name : PyValue;
  email : PyValue;
  email_copy : PyValue;
  phone : PyValue;
  web : PyValue;
  street : PyValue;
  city : PyValue;
  zip : PyValue;
  country : PyValue;
  registration_no : PyValue;
  vat_no : PyValue;
  legal_form : PyValue;
  vat_mode : PyValue;
  bank_account : PyValue;
  iban : PyValue;
  swift_bic : PyValue;
  variable_symbol : PyValue;
  setting_update_from_ares : PyValue;
  ares_update : PyValue;
  setting_invoice_pdf_attachments : PyValue;
  setting_estimate_pdf_attachments : PyValue;
  setting_invoice_send_reminders : PyValue;
  suggestion_enabled : PyValue;
  custom_email_text : PyValue;
  overdue_email_text : PyValue;
  invoice_from_proforma_email_text : PyValue;
  thank_you_email_text : PyValue;
  custom_estimate_email_text : PyValue;
  webinvoice_history : PyValue;
  has_delivery_address : PyValue;
  delivery_name : PyValue;
  delivery_street : PyValue;
  delivery_city : PyValue;
  delivery_zip : PyValue;
  delivery_country : PyValue;
  due : PyValue;
  currency : PyValue;
  language : PyValue;
  private_note : PyValue;
  local_vat_no : PyValue
}.
End Subject.

(** ** The world outside the process *)

(** What [requests.get] does on one call: it hands back a response, or the
    call itself raises (a connection error, say). *)
Inductive HttpReply : Type :=
| Replied (r : Response)
| Failed (e : Exception).

(** Every call that leaves the process, in the order it was made. *)
Inductive Event : Type :=
| EvEnsureToken
| EvSearch (query : PyValue)
| EvInvoice (invoice_id : Z)
| EvSaveSubject (s : Subject.t)
| EvSaveInvoice (o : Obj)
| EvDelete (o : Obj)
| EvGet (url : string) (headers : list (string * string)) (stream : bool)
| EvSleep (secs : Z).

Definition is_sleep (ev : Event) : bool :=
  match ev with EvSleep _ => true | _ => false end.

Section Client.

(** The session state of the API client (token, remote data, ...). *)
Context {St : Type}.

(** The [Fakturoid] object, as far as [utils.py] uses it.  Each operation
    runs on the session state and returns or raises; [save] mutates the
    object it is given (the client refreshes it from the server's answer),
    so it hands back the object as it is after the call. *)
Record Fakturoid : Type := mkFakturoid {
  fa_slug : St → string;
  fa_user_agent : St → string;
  fa_token : St → string;
  fa_ensure_token : St → Res unit * St;
  fa_subjects_search : PyValue → St → Res (list Subject.t) * St;
  fa_invoice : Z → St → Res (option Obj) * St;
  fa_save_subject : Subject.t → St → Res Subject.t * St;
  fa_save_invoice : Obj → St → Res Obj * St;
  fa_delete : Obj → St → Res unit * St
}.

Record World : Type := mkWorld {
  session : St;
  replies : nat → HttpReply;
  issued : nat;
  log : list Event
}.

(** ** The monad of the helpers: state passing with exceptions *)

Definition M (A : Type) : Type := World → Res A * World.

Definition ret {A} (a : A) : M A := λ w, (Ok a, w).

Definition raise {A} (e : Exception) : M A := λ w, (Raise e, w).

Definition bind {A B} (m : M A) (k : A → M B) : M B :=
  λ w, match m w with
       | (Ok a, w') => k a w'
       | (Raise e, w') => (Raise e, w')
       end.

Notation "x <- m ;; k" := (bind m (λ x, k))
  (at level 100, m at next level, right associativity).
Notation "m ;;; k" := (bind m (λ _, k))
  (at level 100, right associativity).

Definition lift {A} (r : Res A) : M A := λ w, (r, w).

(** Reading an attribute of the client object. *)
Definition attr {A} (f : St → A) : M A := λ w, (Ok (f (session w)), w).

(** A method call on the client object. *)
Definition call {A} (ev : Event) (op : St → Res A * St) : M A :=
  λ w, let (r, s') := op (session w) in
       (r, mkWorld s' (replies w) (issued w) (log w ++ [ev])).

(** [requests.get(url, stream=..., headers=...)]: the next reply of the
    server. *)
Definition requests_get (url : string) (headers : list (string * string))
    (stream : bool) : M Response :=
  λ w, let w' := mkWorld (session w) (replies w) (S (issued w))
                   (log w ++ [EvGet url headers stream]) in
       match replies w (issued w) with
       | Replied r => (Ok r, w')
       | Failed e => (Raise e, w')
       end.

(** [time.sleep(secs)], which rejects a negative duration. *)
Definition time_sleep (secs : Z) : M unit :=
  if secs <? 0 then raise (ValueError "sleep length must be non-negative")
  else λ w, (Ok tt, mkWorld (session w) (replies w) (issued w) (log w ++ [EvSleep secs])).

(** [try: body except requests.exceptions.HTTPError as e: handler]. *)
Definition try_except_HTTPError {A} (body : M A) (handler : Exception → M A) : M A :=
  λ w, match body w with
       | (Raise e, w') => if is_HTTPError e then handler e w' else (Raise e, w')
       | ok => ok
       end.

(** A loop run with a bound on its iterations: it is done, with what the
    function returned or raised, or it is still running when the bound is
    reached. *)
Inductive Run (A : Type) : Type :=
| Done (r : Res A) (w : World)
| StillRunning (w : World).
Arguments Done {A} r w.
Arguments StillRunning {A} w.

(** ** [create_fakturoid_subject] *)

(** The [for subject in existing_subjects] loop, which looks [data['email']]
    up again at every comparison: the first subject whose email equals it,
    if there is one. *)
Fixpoint first_with_email (data : Dict) (existing_subjects : list Subject.t)
    : Res (option Subject.t) :=
  match existing_subjects with
  | [] => Ok None
  | subject :: rest =>
      match dict_item data "email" with
      | Raise e => Raise e
      | Ok email =>
          if py_eq (Subject.email subject) email then Ok (Some subject)
          else first_with_email data rest
      end
  end.

(** The [Subject(...)] call. *)
Definition new_subject_of (data : Dict) : M Subject.t :=
  name <- lift (dict_item data "name") ;;
  ret {|
    Subject.custom_id := dict_get data "custom_id";
    Subject.type := dict_get data "type";
    Subject.name := name;
    Subject.full_name := dict_get data "full_name";
    Subject.email := dict_get data "email";
    Subject.email_copy := dict_get data "email_copy";
    Subject.phone := dict_get data "phone";
    Subject.web := dict_get data "web";
    Subject.street := dict_get data "street";
    Subject.city := dict_get data "city";
    Subject.zip := dict_get data "zip";
    Subject.country := dict_get data "country";
    Subject.registration_no := dict_get data "registration_no";
    Subject.vat_no := dict_get data "vat_no";
    Subject.legal_form := dict_get data "legal_form";
    Subject.vat_mode := dict_get data "vat_mode";
    Subject.bank_account := dict_get data "bank_account";
    Subject.iban := dict_get data "iban";
    Subject.swift_bic := dict_get data "swift_bic";
    Subject.variable_symbol := dict_get data "variable_symbol";
    Subject.setting_update_from_ares :=
      dict_get_default data "setting_update_from_ares" (PyStr "inherit");
    Subject.ares_update := dict_get_default data "ares_update" (PyBool true);
    Subject.setting_invoice_pdf_attachments :=
      dict_get_default data "setting_invoice_pdf_attachments" (PyStr "inherit");
    Subject.setting_estimate_pdf_attachments :=
      dict_get_default data "setting_estimate_pdf_attachments" (PyStr "inherit");
    Subject.setting_invoice_send_reminders :=
      dict_get_default data "setting_invoice_send_reminders" (PyStr "inherit");
    Subject.suggestion_enabled := dict_get_default data "suggestion_enabled" (PyBool true);
    Subject.custom_email_text := dict_get data "custom_email_text";
    Subject.overdue_email_text := dict_get data "overdue_email_text";
    Subject.invoice_from_proforma_email_text :=
      dict_get data "invoice_from_proforma_email_text";
    Subject.thank_you_email_text := dict_get data "thank_you_email_text";
    Subject.custom_estimate_email_text := dict_get data "custom_estimate_email_text";
    Subject.webinvoice_history := dict_get data "webinvoice_history";
    Subject.has_delivery_address :=
      dict_get_default data "has_delivery_address" (PyBool false);
    Subject.delivery_name := dict_get data "delivery_name";
    Subject.delivery_street := dict_get data "delivery_street";
    Subject.delivery_city := dict_get data "delivery_city";
    Subject.delivery_zip := dict_get data "delivery_zip";
    Subject.delivery_country := dict_get data "delivery_country";
    Subject.due := dict_get data "due";
    Subject.currency := dict_get data "currency";
    Subject.language := dict_get data "language";
    Subject.private_note := dict_get data "private_note";
    Subject.local_vat_no := dict_get data "local_vat_no"
  |}.

(** Everything below the search: build the subject, save it when a client
    was given, return it. *)
Definition build_and_save_subject (fa : option Fakturoid) (data : Dict) : M Subject.t :=
  new_subject <- new_subject_of data ;;
  match fa with
  | Some fa => call (EvSaveSubject new_subject) (fa_save_subject fa new_subject)
  | None => ret new_subject
  end.

(** [fa] may be [None] (the function tests for it before saving); with an
    email to search for, [fa.subjects] on [None] is an [AttributeError]. *)
Definition create_fakturoid_subject (fa : option Fakturoid) (data : Dict) : M Subject.t :=
  if truthy (dict_get data "email") then
    existing_subjects <-
      match fa with
      | Some fa =>
          query <- lift (dict_item data "email") ;;
          call (EvSearch query) (fa_subjects_search fa query)
      | None => raise (AttributeError "'NoneType' object has no attribute 'subjects'")
      end ;;
    found <- lift (first_with_email data existing_subjects) ;;
    match found with
    | Some subject => ret subject
    | None => build_and_save_subject fa data
    end
  else build_and_save_subject fa data.

(** ** [create_fakturoid_invoice_lines] *)

(** The keyword arguments are evaluated left to right, so a dictionary
    without ['name'] fails on that key before ['unit_price'] is looked at. *)
Definition invoice_line_of (line : Dict) : Res InvoiceLine.t :=
  match dict_item line "name" with
  | Raise e => Raise e
  | Ok name =>
      match dict_item line "unit_price" with
      | Raise e => Raise e
      | Ok unit_price =>
          Ok {|
            InvoiceLine.id := dict_get line "id";
            InvoiceLine.name := name;
            InvoiceLine.quantity := dict_get_default line "quantity" (PyInt 1);
            InvoiceLine.unit_name := dict_get_default line "unit_name" (PyStr "ks");
            InvoiceLine.unit_price := unit_price;
            InvoiceLine.vat_rate := dict_get_default line "vat_rate" (PyInt 0);
            InvoiceLine.unit_price_without_vat :=
              dict_get_default line "unit_price_without_vat" unit_price;
            InvoiceLine.unit_price_with_vat := dict_get line "unit_price_with_vat";
            InvoiceLine.total_price_without_vat := dict_get line "total_price_without_vat";
            InvoiceLine.total_vat := dict_get line "total_vat";
            InvoiceLine.native_total_price_without_vat :=
              dict_get line "native_total_price_without_vat";
            InvoiceLine.native_total_vat := dict_get line "native_total_vat";
            InvoiceLine.inventory_item_id := dict_get line "inventory_item_id";
            InvoiceLine.sku := dict_get line "sku";
            InvoiceLine.inventory := dict_get_default line "inventory" PyNone
          |}
      end
  end.

(** The [for line in data] loop with its accumulator [lines]. *)
Fixpoint lines_loop (data : list Dict) (lines : list InvoiceLine.t)
    : Res (list InvoiceLine.t) :=
  match data with
  | [] => Ok lines
  | line :: rest =>
      match invoice_line_of line with
      | Ok l => lines_loop rest (lines ++ [l])
      | Raise e => Raise e
      end
  end.

Definition create_fakturoid_invoice_lines (data : list Dict) : Res (list InvoiceLine.t) :=
  lines_loop data [].

(** ** [update_invoice] and [delete_invoice] *)

(** The [for field, value in updated_data.items()] loop.  [updated_data]
    is the list of the items of the dict in insertion order, the order the
    loop walks them in; a [setattr] that raises ends the loop. *)
Fixpoint update_loop (updated_data : list (string * PyValue)) (invoice : Obj) : Res Obj :=
  match updated_data with
  | [] => Ok invoice
  | (field, value) :: rest =>
      if hasattr invoice field then
        match setattr invoice field value with
        | Ok invoice' => update_loop rest invoice'
        | Raise e => Raise e
        end
      else update_loop rest invoice
  end.

Definition not_found_message (invoice_id : Z) : string :=
  "Invoice with id " +:+ str_of_int invoice_id +:+ " not found.".

(** [fa.invoice(invoice_id)] answers [None] or an invoice object; an object
    is true in a condition. *)
Definition update_invoice (fa : Fakturoid) (invoice_id : Z)
    (updated_data : list (string * PyValue)) : M Obj :=
  invoice <- call (EvInvoice invoice_id) (fa_invoice fa invoice_id) ;;
  match invoice with
  | None => raise (ValueError (not_found_message invoice_id))
  | Some invoice =>
      invoice <- lift (update_loop updated_data invoice) ;;
      call (EvSaveInvoice invoice) (fa_save_invoice fa invoice)
  end.

Definition delete_invoice (fa : Fakturoid) (invoice_id : Z) : M unit :=
  invoice <- call (EvInvoice invoice_id) (fa_invoice fa invoice_id) ;;
  match invoice with
  | Some invoice => call (EvDelete invoice) (fa_delete fa invoice)
  | None => raise (ValueError (not_found_message invoice_id))
  end.

(** ** [download_invoice_pdf] *)

Definition get_fakturoid_invoice_pdf_url (invoice_id : Z) (slug : string) : Res string :=
  py_format "https://app.fakturoid.cz/api/v3/accounts/{}/invoices/{}/download.pdf"
    [slug; str_of_int invoice_id].

Definition default_retry_delay : Z := 2.
Definition default_max_retries : Z := 5.

(** How one round of the [while] loop ends when it does not raise: with a
    [return], or by falling through to the next test of the condition with
    the value [retries] then has. *)
Inductive Ctl : Type :=
| CtlReturn (body : list Byte.byte)
| CtlNext (retries : Z).

(** The body of the loop: the [try] statement. *)
Definition attempt (url : string) (headers : list (string * string))
    (retry_delay retries : Z) : M Ctl :=
  try_except_HTTPError
    (response <- requests_get url headers true ;;
     if status_code response =? 200 then ret (CtlReturn (content response))
     else if status_code response =? 204 then
       (time_sleep retry_delay ;;; ret (CtlNext (retries + 1)))
     else
       (lift (raise_for_status response) ;;; ret (CtlNext retries)))
    (λ e, raise e).

(** [while retries < max_retries: ...; return None], run for at most [fuel]
    tests of the condition. *)
Fixpoint download_loop (fuel : nat) (url : string) (headers : list (string * string))
    (retry_delay max_retries retries : Z) (w : World) : Run (option (list Byte.byte)) :=
  match fuel with
  | O => StillRunning w
  | S fuel' =>
      if retries <? max_retries then
        match attempt url headers retry_delay retries w with
        | (Ok (CtlReturn body), w') => Done (Ok (Some body)) w'
        | (Ok (CtlNext retries'), w') =>
            download_loop fuel' url headers retry_delay max_retries retries' w'
        | (Raise e, w') => Done (Raise e) w'
        end
      else Done (Ok None) w
  end.

(** What comes before the loop: the URL, the token check, the headers. *)
Definition download_setup (fa : Fakturoid) (invoice_id : Z)
    : M (string * list (string * string)) :=
  slug <- attr (fa_slug fa) ;;
  url <- lift (get_fakturoid_invoice_pdf_url invoice_id slug) ;;
  call EvEnsureToken (fa_ensure_token fa) ;;;
  user_agent <- attr (fa_user_agent fa) ;;
  token <- attr (fa_token fa) ;;
  ret (url, [("User-Agent", user_agent);
             ("Authorization", "Bearer " +:+ token);
             ("Accept", "application/pdf")]).

Definition download_invoice_pdf (fuel : nat) (fa : Fakturoid) (invoice_id : Z)
    (retry_delay max_retries : Z) (w : World) : Run (option (list Byte.byte)) :=
  match download_setup fa invoice_id w with
  | (Raise e, w') => Done (Raise e) w'
  | (Ok (url, headers), w') =>
      download_loop fuel url headers retry_delay max_retries 0 w'
  end.

End Client.

Arguments Fakturoid St : clear implicits.
Arguments World St : clear implicits.
Arguments M St A : clear implicits.
Arguments Run St A : clear implicits.
Arguments Done {St A} r w.
Arguments StillRunning {St A} w.

(** The world a run ends in. *)
Definition run_world {St A} (r : Run St A) : World St :=
  match r with
  | Done _ w => w
  | StillRunning w => w
  end.

(** What a run returned or raised, if it is done. *)
Definition result_of {St A} (r : Run St A) : option (Res A) :=
  match r with
  | Done res _ => Some res
  | StillRunning _ => None
  end.

(** The world after one more [requests.get], and after one more sleep. *)
Definition after_get {St} (url : string) (headers : list (string * string))
    (w : World St) : World St :=
  mkWorld (session w) (replies w) (S (issued w)) (log w ++ [EvGet url headers true]).

Definition after_sleep {St} (secs : Z) (w : World St) : World St :=
  mkWorld (session w) (replies w) (issued w) (log w ++ [EvSleep secs]).

Definition after_call {St} (ev : Event) (s : St) (w : World St) : World St :=
  mkWorld s (replies w) (issued w) (log w ++ [ev]).

(** The URL and the headers the source builds, written out. *)
Definition pdf_url (slug : string) (invoice_id : Z) : string :=
  "https://app.fakturoid.cz/api/v3/accounts/" +:+ slug +:+ "/invoices/"
    +:+ str_of_int invoice_id +:+ "/download.pdf".

Definition pdf_headers (user_agent token : string) : list (string * string) :=
  [("User-Agent", user_agent);
   ("Authorization", "Bearer " +:+ token);
   ("Accept", "application/pdf")].

(** ** A client in memory, to run the helpers on concrete inputs *)

Module Demo.

Record Store : Type := mkStore {
  invoices : gmap Z Obj;
  subjects : list Subject.t;
  access_token : string
}.

Definition blank_subject : Subject.t :=
  Subject.mk PyNone PyNone PyNone PyNone PyNone PyNone PyNone PyNone PyNone PyNone
    PyNone PyNone PyNone PyNone PyNone PyNone PyNone PyNone PyNone PyNone
    PyNone PyNone PyNone PyNone PyNone PyNone PyNone PyNone PyNone PyNone
    PyNone PyNone PyNone PyNone PyNone PyNone PyNone PyNone PyNone PyNone
    PyNone PyNone PyNone.

Definition subject_named (name email : string) : Subject.t :=
  Eval cbv in
    let s := blank_subject in
    Subject.mk (Subject.custom_id s) (Subject.type s) (PyStr name) (Subject.full_name s)
      (PyStr email) PyNone PyNone PyNone PyNone PyNone
      PyNone PyNone PyNone PyNone PyNone PyNone PyNone PyNone PyNone PyNone
      PyNone PyNone PyNone PyNone PyNone PyNone PyNone PyNone PyNone PyNone
      PyNone PyNone PyNone PyNone PyNone PyNone PyNone PyNone PyNone PyNone
      PyNone PyNone PyNone.

(** The search of the service is a full-text search: it may answer with
    subjects whose email merely resembles the query.  Here it answers with
    every stored subject. *)
Definition client : Fakturoid Store := {|
  fa_slug := λ _, "acme";
  fa_user_agent := λ _, "utils (dev@example.com)";
  fa_token := access_token;
  fa_ensure_token := λ s,
    (Ok tt, if String.eqb (access_token s) ""
            then mkStore (invoices s) (subjects s) "t0k3n" else s);
  fa_subjects_search := λ _ s, (Ok (subjects s), s);
  fa_invoice := λ invoice_id s, (Ok (invoices s !! invoice_id), s);
  fa_save_subject := λ subject s,
    (Ok subject, mkStore (invoices s) (subjects s ++ [subject]) (access_token s));
  fa_save_invoice := λ invoice s, (Ok invoice, s);
  fa_delete := λ invoice s, (Ok tt, s)
|}.

Definition invoice7 : Obj :=
  mkObj {[ "update"; "get_fields"; "__repr__" ]}
    {[ "id" := PyInt 7; "number" := PyStr "2024-0007"; "note" := PyNone ]}.

Definition store : Store :=
  mkStore {[ 7 := invoice7 ]}
    [subject_named "Alice" "alice@example.com"; subject_named "Bob" "bob@example.com"]
    "".

Definition world (server : nat → HttpReply) : World Store :=
  mkWorld store server 0 [].

Definition pdf : list Byte.byte := [Byte.x25; Byte.x50; Byte.x44; Byte.x46].

(** A server that answers every request with the same status, and one that
    answers with a given list of statuses and then with 200 and the PDF. *)
Definition always (status : Z) : nat → HttpReply :=
  λ _, Replied (mkResponse status []).

Definition script (statuses : list Z) : nat → HttpReply :=
  λ k, match statuses !! k with
       | Some status => Replied (mkResponse status [])
       | None => Replied (mkResponse 200 pdf)
       end.

End Demo.

(** The shapes one round of the download loop can take, whatever the
    reply: it returns the body, it sleeps and counts a retry, it falls
    through with nothing counted, or it raises. *)
Inductive round_shape {St} (url : string) (headers : list (string * string))
    (d retries : Z) (w : World St) : Res Ctl * World St → Prop :=
| round_return r :
    replies w (issued w) = Replied r → status_code r = 200 →
    round_shape url headers d retries w
      (Ok (CtlReturn (content r)), after_get url headers w)
| round_retry r :
    replies w (issued w) = Replied r → status_code r = 204 → 0 ≤ d →
    round_shape url headers d retries w
      (Ok (CtlNext (retries + 1)), after_sleep d (after_get url headers w))
| round_spin r :
    replies w (issued w) = Replied r →
    status_code r ≠ 200 → status_code r ≠ 204 → ¬ (400 ≤ status_code r < 600) →
    round_shape url headers d retries w
      (Ok (CtlNext retries), after_get url headers w)
| round_raise e :
    (∀ r, replies w (issued w) = Replied r →
          status_code r ≠ 200 ∧ (status_code r = 204 → d < 0)) →
    round_shape url headers d retries w (Raise e, after_get url headers w).

(** The world after [n] rounds that each got a 204: a request and a sleep,
    [n] times over. *)
Fixpoint after_retries {St} (n : nat) (url : string) (headers : list (string * string))
    (d : Z) (w : World St) : World St :=
  match n with
  | O => w
  | S n' => after_retries n' url headers d (after_sleep d (after_get url headers w))
  end.

(** The statuses the loop has a terminating answer to: it returns on 200,
    counts a retry on 204 and raises on 4xx and 5xx. *)
Definition handled_status (status : Z) : Prop :=
  status = 200 ∨ status = 204 ∨ 400 ≤ status < 600.

(** How many sleeps a log holds. *)
Definition sleeps (l : list Event) : nat := length (List.filter is_sleep l).

(** How many requests a log holds. *)
Definition is_get (ev : Event) : bool :=
  match ev with EvGet _ _ _ => true | _ => false end.

Definition requests (l : list Event) : nat := length (List.filter is_get l).

(** The world after [n] rounds that each fell through the [else] branch: a
    request and nothing else, [n] times over. *)
Fixpoint after_gets {St} (n : nat) (url : string) (headers : list (string * string))
    (w : World St) : World St :=
  match n with
  | O => w
  | S n' => after_gets n' url headers (after_get url headers w)
  end.

(** The replies that end the loop, with what the function then returns or
    raises: a failed request, a 200, a 4xx or 5xx, and a 204 when the delay
    is one [time.sleep] rejects.  Every other reply sends the loop round
    again. *)
Definition terminal_result (d : Z) (reply : HttpReply)
    : option (Res (option (list Byte.byte))) :=
  match reply with
  | Failed e => Some (Raise e)
  | Replied r =>
      if status_code r =? 200 then Some (Ok (Some (content r)))
      else if status_code r =? 204 then
        if d <? 0 then Some (Raise (ValueError "sleep length must be non-negative"))
        else None
      else if (400 <=? status_code r) && (status_code r <? 600)
      then Some (Raise (HTTPError r))
      else None
  end.

(** A client whose every call fails, as when the service cannot be
    reached. *)
Module Offline.

Definition unreachable : Exception :=
  LibraryError "ConnectionError" "service unreachable".

Definition client : Fakturoid Demo.Store := {|
  fa_slug := λ _, "acme";
  fa_user_agent := λ _, "utils (dev@example.com)";
  fa_token := Demo.access_token;
  fa_ensure_token := λ s, (Raise unreachable, s);
  fa_subjects_search := λ _ s, (Raise unreachable, s);
  fa_invoice := λ _ s, (Raise unreachable, s);
  fa_save_subject := λ _ s, (Raise unreachable, s);
  fa_save_invoice := λ _ s, (Raise unreachable, s);
  fa_delete := λ _ s, (Raise unreachable, s)
|}.

End Offline.

(** A client that validates on its side: [save] and [delete] raise a
    [ValueError] of their own. *)
Module Picky.

Definition rejected : Exception := ValueError "invoice is locked".

Definition client : Fakturoid Demo.Store := {|
  fa_slug := fa_slug Demo.client;
  fa_user_agent := fa_user_agent Demo.client;
  fa_token := fa_token Demo.client;
  fa_ensure_token := fa_ensure_token Demo.client;
  fa_subjects_search := fa_subjects_search Demo.client;
  fa_invoice := fa_invoice Demo.client;
  fa_save_subject := fa_save_subject Demo.client;
  fa_save_invoice := λ _ s, (Raise rejected, s);
  fa_delete := λ _ s, (Raise rejected, s)
|}.

End Picky.

(** * Properties *)

(** ** One round of the download loop *)

Section DownloadRound.

Context {St : Type}.
Implicit Types (w : World St) (headers : list (string * string)).

Lemma attempt_failed url headers d retries w e :
  replies w (issued w) = Failed e →
  attempt url headers d retries w = (Raise e, after_get url headers w).
Proof.
  intros Hreply. unfold attempt, try_except_HTTPError, bind, requests_get.
  rewrite Hreply. by destruct (is_HTTPError e).
Qed.

Lemma attempt_200 url headers d retries w r :
  replies w (issued w) = Replied r → status_code r = 200 →
  attempt url headers d retries w
  = (Ok (CtlReturn (content r)), after_get url headers w).
Proof.
  intros Hreply Hstatus. unfold attempt, try_except_HTTPError, bind, requests_get.
  by rewrite Hreply, Hstatus.
Qed.

Lemma attempt_204 url headers d retries w r :
  replies w (issued w) = Replied r → status_code r = 204 → 0 ≤ d →
  attempt url headers d retries w
  = (Ok (CtlNext (retries + 1)), after_sleep d (after_get url headers w)).
Proof.
  intros Hreply Hstatus Hd.
  unfold attempt, try_except_HTTPError, bind, requests_get, time_sleep.
  rewrite Hreply, Hstatus. simpl.
  destruct (d <? 0) eqn:Hneg; [lia | done].
Qed.

Lemma attempt_204_negative_delay url headers d retries w r :
  replies w (issued w) = Replied r → status_code r = 204 → d < 0 →
  attempt url headers d retries w
  = (Raise (ValueError "sleep length must be non-negative"), after_get url headers w).
Proof.
  intros Hreply Hstatus Hd.
  unfold attempt, try_except_HTTPError, bind, requests_get, time_sleep.
  rewrite Hreply, Hstatus. simpl.
  destruct (d <? 0) eqn:Hneg; [done | lia].
Qed.

Lemma attempt_error_status url headers d retries w r :
  replies w (issued w) = Replied r → 400 ≤ status_code r < 600 →
  attempt url headers d retries w
  = (Raise (HTTPError r), after_get url headers w).
Proof.
  intros Hreply Hstatus.
  unfold attempt, try_except_HTTPError, bind, requests_get, lift, raise_for_status.
  rewrite Hreply.
  destruct (status_code r =? 200) eqn:H200; [lia |].
  destruct (status_code r =? 204) eqn:H204; [lia |].
  destruct (400 <=? status_code r) eqn:Hlo; [| lia].
  destruct (status_code r <? 600) eqn:Hhi; [done | lia].
Qed.

(** A status that is neither 200 nor 204 nor an error status: the round
    falls through with [retries] as it was and without a sleep. *)
Lemma attempt_other_status url headers d retries w r :
  replies w (issued w) = Replied r →
  status_code r ≠ 200 → status_code r ≠ 204 →
  ¬ (400 ≤ status_code r < 600) →
  attempt url headers d retries w
  = (Ok (CtlNext retries), after_get url headers w).
Proof.
  intros Hreply H200 H204 Herr.
  unfold attempt, try_except_HTTPError, bind, requests_get, lift, raise_for_status.
  rewrite Hreply.
  destruct (status_code r =? 200) eqn:E200; [lia |].
  destruct (status_code r =? 204) eqn:E204; [lia |].
  destruct (400 <=? status_code r) eqn:Hlo, (status_code r <? 600) eqn:Hhi;
    simpl; (done || lia).
Qed.

Lemma attempt_shape url headers d retries w :
  round_shape url headers d retries w (attempt url headers d retries w).
Proof.
  destruct (replies w (issued w)) as [r|e] eqn:Hreply.
  - destruct (decide (status_code r = 200)) as [H200|H200].
    { rewrite (attempt_200 _ _ _ _ _ r) by done. by apply round_return. }
    destruct (decide (status_code r = 204)) as [H204|H204].
    { destruct (decide (0 ≤ d)) as [Hd|Hd].
      - rewrite (attempt_204 _ _ _ _ _ r) by done. by apply (round_retry _ _ _ _ _ r).
      - rewrite (attempt_204_negative_delay _ _ _ _ _ r) by (done || lia).
        apply round_raise. intros r' Hr'. split; [congruence | lia]. }
    destruct (decide (400 ≤ status_code r < 600)) as [Herr|Herr].
    + rewrite (attempt_error_status _ _ _ _ _ r) by done.
      apply round_raise. intros r' Hr'. split; congruence.
    + rewrite (attempt_other_status _ _ _ _ _ r) by done.
      by apply (round_spin _ _ _ _ _ r).
  - rewrite (attempt_failed _ _ _ _ _ e) by done.
    apply round_raise. intros r' Hr'. congruence.
Qed.

End DownloadRound.

(** ** The download loop *)

Section DownloadLoop.

Context {St : Type}.
Variables (url : string) (headers : list (string * string)) (d max_retries : Z).
Implicit Types (w : World St) (fuel k n : nat) (retries : Z).

Lemma download_loop_exhausted fuel retries w :
  max_retries ≤ retries →
  download_loop (S fuel) url headers d max_retries retries w = Done (Ok None) w.
Proof. intros Hge. simpl. destruct (retries <? max_retries) eqn:Hlt; [lia | done]. Qed.

Lemma download_loop_round fuel retries w :
  retries < max_retries →
  download_loop (S fuel) url headers d max_retries retries w
  = match attempt url headers d retries w with
    | (Ok (CtlReturn body), w') => Done (Ok (Some body)) w'
    | (Ok (CtlNext retries'), w') =>
        download_loop fuel url headers d max_retries retries' w'
    | (Raise e, w') => Done (Raise e) w'
    end.
Proof. intros Hlt. simpl. destruct (retries <? max_retries) eqn:E; [done | lia]. Qed.

Lemma download_loop_200 fuel retries w r :
  retries < max_retries →
  replies w (issued w) = Replied r → status_code r = 200 →
  download_loop (S fuel) url headers d max_retries retries w
  = Done (Ok (Some (content r))) (after_get url headers w).
Proof.
  intros Hlt Hreply Hstatus.
  by rewrite download_loop_round, (attempt_200 _ _ _ _ _ r).
Qed.

Lemma download_loop_204 fuel retries w r :
  retries < max_retries → 0 ≤ d →
  replies w (issued w) = Replied r → status_code r = 204 →
  download_loop (S fuel) url headers d max_retries retries w
  = download_loop fuel url headers d max_retries (retries + 1)
      (after_sleep d (after_get url headers w)).
Proof.
  intros Hlt Hd Hreply Hstatus.
  by rewrite download_loop_round, (attempt_204 _ _ _ _ _ r).
Qed.

Lemma download_loop_error_status fuel retries w r :
  retries < max_retries →
  replies w (issued w) = Replied r → 400 ≤ status_code r < 600 →
  download_loop (S fuel) url headers d max_retries retries w
  = Done (Raise (HTTPError r)) (after_get url headers w).
Proof.
  intros Hlt Hreply Hstatus.
  by rewrite download_loop_round, (attempt_error_status _ _ _ _ _ r).
Qed.

Lemma download_loop_other_status fuel retries w r :
  retries < max_retries →
  replies w (issued w) = Replied r →
  status_code r ≠ 200 → status_code r ≠ 204 → ¬ (400 ≤ status_code r < 600) →
  download_loop (S fuel) url headers d max_retries retries w
  = download_loop fuel url headers d max_retries retries (after_get url headers w).
Proof.
  intros Hlt Hreply H200 H204 Herr.
  by rewrite download_loop_round, (attempt_other_status _ _ _ _ _ r).
Qed.

(** The loop leaves the session and the server alone, and only ever adds
    its own requests and sleeps to the log. *)
Lemma download_loop_world fuel retries w :
  let w' := run_world (download_loop fuel url headers d max_retries retries w) in
  session w' = session w ∧ replies w' = replies w ∧ (issued w ≤ issued w')%nat
  ∧ ∃ new, log w' = log w ++ new
      ∧ Forall (λ ev, ev = EvGet url headers true ∨ ev = EvSleep d) new.
Proof.
  revert retries w. induction fuel as [|fuel IH]; intros retries w; simpl.
  { split_and!; try done; try (simpl; lia). exists []. by rewrite app_nil_r. }
  destruct (retries <? max_retries).
  2:{ simpl. split_and!; try done; try (simpl; lia). exists []. by rewrite app_nil_r. }
  destruct (attempt_shape url headers d retries w)
    as [r Hreply Hstatus | r Hreply Hstatus Hd | r Hreply H200 H204 Herr | e Hno]; simpl.
  - split_and!; try done; try (simpl; lia). exists [EvGet url headers true]. split; [done |].
    constructor; [by left | constructor].
  - destruct (IH (retries + 1) (after_sleep d (after_get url headers w)))
      as (Hs & Hr & Hi & new & Hlog & Hnew).
    simpl in *. split_and!; try done; try lia.
    exists (EvGet url headers true :: EvSleep d :: new). split.
    + rewrite Hlog, <- !app_assoc. done.
    + constructor; [by left |]. constructor; [by right | done].
  - destruct (IH retries (after_get url headers w))
      as (Hs & Hr & Hi & new & Hlog & Hnew).
    simpl in *. split_and!; try done; try lia.
    exists (EvGet url headers true :: new). split.
    + rewrite Hlog, <- !app_assoc. done.
    + constructor; [by left | done].
  - split_and!; try done; try (simpl; lia). exists [EvGet url headers true]. split; [done |].
    constructor; [by left | constructor].
Qed.

(** A request answered with 200 is the last thing the loop does. *)
Lemma download_loop_200_is_last fuel retries w k r :
  let run := download_loop fuel url headers d max_retries retries w in
  (issued w ≤ k < issued (run_world run))%nat →
  replies w k = Replied r → status_code r = 200 →
  run = Done (Ok (Some (content r))) (run_world run)
  ∧ issued (run_world run) = S k
  ∧ last (log (run_world run)) = Some (EvGet url headers true).
Proof.
  revert retries w. induction fuel as [|fuel IH]; intros retries w; simpl.
  { lia. }
  destruct (retries <? max_retries); [| simpl; lia].
  destruct (attempt_shape url headers d retries w)
    as [r0 Hreply Hstatus | r0 Hreply Hstatus Hd | r0 Hreply H200 H204 Herr | e Hno];
    simpl; intros Hk Hr H200r.
  - assert (k = issued w) as -> by lia.
    rewrite Hreply in Hr. injection Hr as ->.
    split_and!; [done | done |]. by rewrite last_snoc.
  - destruct (decide (k = issued w)) as [-> | Hne].
    { rewrite Hreply in Hr. injection Hr as ->. lia. }
    apply (IH (retries + 1) (after_sleep d (after_get url headers w))); simpl;
      [lia | done | done].
  - destruct (decide (k = issued w)) as [-> | Hne].
    { rewrite Hreply in Hr. injection Hr as ->. lia. }
    apply (IH retries (after_get url headers w)); simpl; [lia | done | done].
  - assert (k = issued w) as -> by lia.
    by destruct (Hno r Hr).
Qed.

(** A run that is done and saw nothing but 204 replies left through the
    condition of the loop. *)
Lemma download_loop_done_all_204 fuel retries w res w' :
  0 ≤ d →
  download_loop fuel url headers d max_retries retries w = Done res w' →
  (∀ k, (issued w ≤ k < issued w')%nat →
        ∃ r, replies w k = Replied r ∧ status_code r = 204) →
  res = Ok None.
Proof.
  intros Hd. revert retries w. induction fuel as [|fuel IH]; intros retries w; simpl.
  { done. }
  destruct (retries <? max_retries); [| by intros [= <- <-]].
  destruct (attempt_shape url headers d retries w)
    as [r0 Hreply Hstatus | r0 Hreply Hstatus Hd' | r0 Hreply H200 H204 Herr | e Hno];
    simpl.
  - intros [= <- <-] Hall. simpl in Hall.
    destruct (Hall (issued w)) as (r & Hr & H204); [lia |].
    rewrite Hreply in Hr. injection Hr as ->. lia.
  - intros Hrun Hall.
    apply (IH _ _ Hrun). intros k Hk. simpl in Hk. apply Hall. lia.
  - intros Hrun Hall.
    pose proof (download_loop_world fuel retries (after_get url headers w)) as Hw.
    rewrite Hrun in Hw. simpl in Hw. destruct Hw as (_ & _ & Hissued & _).
    destruct (Hall (issued w)) as (r & Hr & H204'); [lia |].
    rewrite Hreply in Hr. injection Hr as ->. lia.
  - intros [= <- <-] Hall. simpl in Hall.
    destruct (Hall (issued w)) as (r & Hr & H204); [lia |].
    destruct (Hno r Hr) as [_ Hneg]. specialize (Hneg H204). lia.
Qed.

(** The loop sleeps once per counted retry, and so at most
    [max_retries - retries] more times. *)
Lemma download_loop_sleeps_bound fuel retries w :
  (sleeps (log (run_world (download_loop fuel url headers d max_retries retries w)))
   ≤ sleeps (log w) + Z.to_nat (max_retries - retries))%nat.
Proof.
  revert retries w. induction fuel as [|fuel IH]; intros retries w; simpl.
  { lia. }
  destruct (retries <? max_retries) eqn:Hlt; [| simpl; lia].
  destruct (attempt_shape url headers d retries w)
    as [r0 Hreply Hstatus | r0 Hreply Hstatus Hd | r0 Hreply H200 H204 Herr | e Hno];
    simpl.
  - unfold sleeps. rewrite List.filter_app, length_app. simpl. lia.
  - etrans; [apply IH |]. simpl. unfold sleeps.
    rewrite !List.filter_app, !length_app. simpl. lia.
  - etrans; [apply IH |]. simpl. unfold sleeps.
    rewrite !List.filter_app, !length_app. simpl. lia.
  - unfold sleeps. rewrite List.filter_app, length_app. simpl. lia.
Qed.

Lemma after_retries_issued n w :
  issued (after_retries n url headers d w) = (issued w + n)%nat.
Proof.
  revert w. induction n as [|n IH]; intros w; simpl; [lia |].
  rewrite IH. simpl. lia.
Qed.

Lemma after_retries_replies n w :
  replies (after_retries n url headers d w) = replies w.
Proof. revert w. induction n as [|n IH]; intros w; simpl; [done |]. by rewrite IH. Qed.

Lemma after_retries_log n w :
  log (after_retries n url headers d w)
  = log w ++ mjoin (replicate n [EvGet url headers true; EvSleep d]).
Proof.
  revert w. induction n as [|n IH]; intros w; simpl.
  - by rewrite app_nil_r.
  - rewrite IH. simpl. by rewrite <- !app_assoc.
Qed.

(** When the next [max_retries - retries] replies are all 204, the loop
    makes exactly that many rounds and then leaves through its condition. *)
Lemma download_loop_all_204 n fuel retries w :
  0 ≤ d →
  n = Z.to_nat (max_retries - retries) →
  (∀ k, (issued w ≤ k < issued w + n)%nat →
        ∃ r, replies w k = Replied r ∧ status_code r = 204) →
  (n < fuel)%nat →
  download_loop fuel url headers d max_retries retries w
  = Done (Ok None) (after_retries n url headers d w).
Proof.
  intros Hd. revert fuel retries w.
  induction n as [|n IH]; intros fuel retries w Hn Hall Hfuel.
  - destruct fuel as [|fuel]; [lia |]. apply download_loop_exhausted. lia.
  - destruct fuel as [|fuel]; [lia |].
    destruct (Hall (issued w)) as (r & Hreply & Hstatus); [lia |].
    rewrite (download_loop_204 _ _ _ r) by (done || lia).
    rewrite IH; [done | lia | | lia].
    intros k Hk. simpl in *. apply Hall. lia.
Qed.

(** When every reply has a status the loop does not handle, the loop never
    leaves: whatever the bound, it is still running, it has issued one
    request per round and it has not slept. *)
Lemma download_loop_spins fuel retries w :
  retries < max_retries →
  (∀ k, (issued w ≤ k)%nat →
        ∃ r, replies w k = Replied r ∧ ¬ handled_status (status_code r)) →
  ∃ w', download_loop fuel url headers d max_retries retries w = StillRunning w'
        ∧ issued w' = (issued w + fuel)%nat
        ∧ sleeps (log w') = sleeps (log w).
Proof.
  intros Hlt. revert w. induction fuel as [|fuel IH]; intros w Hall.
  - exists w. simpl. split_and!; [done | lia | done].
  - destruct (Hall (issued w)) as (r & Hreply & Hstatus); [lia |].
    unfold handled_status in Hstatus.
    rewrite (download_loop_other_status _ _ _ r) by (done || lia).
    destruct (IH (after_get url headers w)) as (w' & Hrun & Hissued & Hsleeps).
    { intros k Hk. simpl in *. apply Hall. lia. }
    exists w'. split_and!; [done | simpl in *; lia |].
    rewrite Hsleeps. unfold sleeps. simpl.
    rewrite List.filter_app, length_app. simpl. lia.
Qed.

(** When every reply has a status the loop handles (or the request itself
    fails), the loop is done within [max_retries - retries] rounds. *)
Lemma download_loop_terminates fuel retries w :
  (∀ k r, (issued w ≤ k)%nat → replies w k = Replied r →
          handled_status (status_code r)) →
  (Z.to_nat (max_retries - retries) < fuel)%nat →
  ∃ res w', download_loop fuel url headers d max_retries retries w = Done res w'
            ∧ (issued w' ≤ issued w + Z.to_nat (max_retries - retries))%nat.
Proof.
  revert retries w. induction fuel as [|fuel IH]; intros retries w Hall Hfuel; [lia |].
  simpl. destruct (retries <? max_retries) eqn:Hlt.
  2:{ exists (Ok None), w. split; [done | lia]. }
  destruct (attempt_shape url headers d retries w)
    as [r0 Hreply Hstatus | r0 Hreply Hstatus Hd | r0 Hreply H200 H204 Herr | e Hno].
  - eexists _, _. split; [done |]. simpl. lia.
  - destruct (IH (retries + 1) (after_sleep d (after_get url headers w)))
      as (res & w' & Hrun & Hissued).
    { intros k r Hk. simpl in *. apply Hall. lia. }
    { lia. }
    exists res, w'. split; [done |]. simpl in *. lia.
  - destruct (Hall (issued w) r0) as [? | [? | ?]]; (done || lia).
  - eexists _, _. split; [done |]. simpl. lia.
Qed.

End DownloadLoop.

(** ** [download_invoice_pdf] as a whole *)

Lemma get_fakturoid_invoice_pdf_url_eq invoice_id slug :
  get_fakturoid_invoice_pdf_url invoice_id slug = Ok (pdf_url slug invoice_id).
Proof. reflexivity. Qed.

Section Download.

Context {St : Type} (fa : Fakturoid St).
Implicit Types (w : World St) (fuel k : nat) (invoice_id d max_retries : Z).

(** The set-up makes one call, [_ensure_token], and fails only if that call
    does. *)
Lemma download_setup_eq invoice_id w :
  download_setup fa invoice_id w
  = (match (fa_ensure_token fa (session w)).1 with
     | Ok _ =>
         Ok (pdf_url (fa_slug fa (session w)) invoice_id,
             pdf_headers (fa_user_agent fa (fa_ensure_token fa (session w)).2)
                         (fa_token fa (fa_ensure_token fa (session w)).2))
     | Raise e => Raise e
     end,
     after_call EvEnsureToken (fa_ensure_token fa (session w)).2 w).
Proof.
  unfold download_setup, bind, attr, lift, call, ret.
  rewrite get_fakturoid_invoice_pdf_url_eq. simpl.
  by destruct (fa_ensure_token fa (session w)) as [[[]|e] s1].
Qed.

Lemma download_invoice_pdf_ready fuel invoice_id d max_retries w s1 :
  fa_ensure_token fa (session w) = (Ok tt, s1) →
  download_invoice_pdf fuel fa invoice_id d max_retries w
  = download_loop fuel (pdf_url (fa_slug fa (session w)) invoice_id)
      (pdf_headers (fa_user_agent fa s1) (fa_token fa s1)) d max_retries 0
      (after_call EvEnsureToken s1 w).
Proof.
  intros Htoken. unfold download_invoice_pdf.
  by rewrite download_setup_eq, Htoken.
Qed.

Lemma download_invoice_pdf_no_token fuel invoice_id d max_retries w e s1 :
  fa_ensure_token fa (session w) = (Raise e, s1) →
  download_invoice_pdf fuel fa invoice_id d max_retries w
  = Done (Raise e) (after_call EvEnsureToken s1 w).
Proof.
  intros Htoken. unfold download_invoice_pdf.
  by rewrite download_setup_eq, Htoken.
Qed.

(** C2: whenever a request of [download_invoice_pdf] is answered with
    status 200, the function returns the body of that response at once: the
    run is done with these bytes, the request is the last one issued, and it
    is the last entry of the log, so no request and no sleep follow it. *)
Theorem download_returns_body_on_200 fuel invoice_id d max_retries w k r :
  (issued w ≤ k
   < issued (run_world (download_invoice_pdf fuel fa invoice_id d max_retries w)))%nat →
  replies w k = Replied r →
  status_code r = 200 →
  result_of (download_invoice_pdf fuel fa invoice_id d max_retries w)
  = Some (Ok (Some (content r)))
  ∧ issued (run_world (download_invoice_pdf fuel fa invoice_id d max_retries w)) = S k
  ∧ ∃ url headers,
      last (log (run_world (download_invoice_pdf fuel fa invoice_id d max_retries w)))
      = Some (EvGet url headers true).
Proof.
  destruct (fa_ensure_token fa (session w)) as [[[]|e] s1] eqn:Htoken.
  - rewrite (download_invoice_pdf_ready _ _ _ _ _ s1) by done.
    intros Hk Hr Hstatus.
    destruct (download_loop_200_is_last
                (pdf_url (fa_slug fa (session w)) invoice_id)
                (pdf_headers (fa_user_agent fa s1) (fa_token fa s1))
                d max_retries fuel 0 (after_call EvEnsureToken s1 w) k r)
      as (Hrun & Hissued & Hlast); [done | done | done |].
    split_and!; [by rewrite Hrun | done | eauto].
  - rewrite (download_invoice_pdf_no_token _ _ _ _ _ e s1) by done.
    simpl. lia.
Qed.

(** C4: a 204 makes the loop sleep for [retry_delay] seconds, count one
    retry and go round again; whatever the server answers the function
    sleeps at most [max_retries] times; and if every answer is 204 it
    returns after exactly [max_retries] requests, each followed by a
    sleep. *)
Theorem download_retries_on_204 invoice_id d max_retries w s1 :
  0 ≤ d →
  fa_ensure_token fa (session w) = (Ok tt, s1) →
  let url := pdf_url (fa_slug fa (session w)) invoice_id in
  let headers := pdf_headers (fa_user_agent fa s1) (fa_token fa s1) in
  (∀ fuel retries w1 r,
      retries < max_retries →
      replies w1 (issued w1) = Replied r → status_code r = 204 →
      download_loop (S fuel) url headers d max_retries retries w1
      = download_loop fuel url headers d max_retries (retries + 1)
          (after_sleep d (after_get url headers w1)))
  ∧ (∀ fuel,
      (sleeps (log (run_world (download_invoice_pdf fuel fa invoice_id d max_retries w)))
       ≤ sleeps (log w) + Z.to_nat max_retries)%nat)
  ∧ ((∀ k, (issued w ≤ k < issued w + Z.to_nat max_retries)%nat →
           ∃ r, replies w k = Replied r ∧ status_code r = 204) →
     ∀ fuel, (Z.to_nat max_retries < fuel)%nat →
       ∃ w', download_invoice_pdf fuel fa invoice_id d max_retries w = Done (Ok None) w'
             ∧ Z.of_nat (issued w' - issued w) = Z.max 0 max_retries
             ∧ log w' = log w ++ EvEnsureToken
                 :: mjoin (replicate (Z.to_nat max_retries)
                             [EvGet url headers true; EvSleep d])).
Proof.
  intros Hd Htoken url headers. split_and!.
  - intros fuel retries w1 r Hlt Hreply Hstatus.
    by apply (download_loop_204 _ _ _ _ _ _ _ r).
  - intros fuel. rewrite (download_invoice_pdf_ready _ _ _ _ _ s1) by done.
    etrans; [apply download_loop_sleeps_bound |].
    simpl. unfold sleeps. rewrite List.filter_app, length_app, Z.sub_0_r. simpl. lia.
  - intros Hall fuel Hfuel.
    rewrite (download_invoice_pdf_ready _ _ _ _ _ s1) by done.
    rewrite (download_loop_all_204 _ _ _ _ (Z.to_nat max_retries));
      [| done | by rewrite Z.sub_0_r | done | done].
    eexists. split; [done |].
    rewrite after_retries_issued, after_retries_log. simpl.
    split; [lia |]. by rewrite <- app_assoc.
Qed.

(** C5: when the retries are used up, every request issued having been
    answered with 204, the function returns [None] and raises nothing: a
    finished run that saw only 204 replies has the result [None], and when
    the first [max_retries] replies are 204 the run does finish. *)
Theorem download_returns_None_when_exhausted invoice_id d max_retries w s1 :
  0 ≤ d →
  fa_ensure_token fa (session w) = (Ok tt, s1) →
  (∀ fuel res w',
      download_invoice_pdf fuel fa invoice_id d max_retries w = Done res w' →
      (∀ k, (issued w ≤ k < issued w')%nat →
            ∃ r, replies w k = Replied r ∧ status_code r = 204) →
      res = Ok None)
  ∧ ((∀ k, (issued w ≤ k < issued w + Z.to_nat max_retries)%nat →
           ∃ r, replies w k = Replied r ∧ status_code r = 204) →
     ∀ fuel, (Z.to_nat max_retries < fuel)%nat →
       result_of (download_invoice_pdf fuel fa invoice_id d max_retries w)
       = Some (Ok None)).
Proof.
  intros Hd Htoken. split.
  - intros fuel res w'. rewrite (download_invoice_pdf_ready _ _ _ _ _ s1) by done.
    intros Hrun Hall. by eapply download_loop_done_all_204.
  - intros Hall fuel Hfuel.
    rewrite (download_invoice_pdf_ready _ _ _ _ _ s1) by done.
    by rewrite (download_loop_all_204 _ _ _ _ (Z.to_nat max_retries));
      [| | rewrite Z.sub_0_r | |].
Qed.

(** A loop that is entered issues a request first of all. *)
Lemma download_loop_requests_first url headers fuel d max_retries retries w :
  retries < max_retries →
  ∃ rest,
    log (run_world (download_loop (S fuel) url headers d max_retries retries w))
    = log w ++ EvGet url headers true :: rest.
Proof.
  intros Hlt. rewrite download_loop_round by done.
  destruct (attempt_shape url headers d retries w)
    as [r Hreply Hstatus | r Hreply Hstatus Hd | r Hreply H200 H204 Herr | e Hno].
  - by exists [].
  - destruct (download_loop_world url headers d max_retries fuel (retries + 1)
                (after_sleep d (after_get url headers w)))
      as (_ & _ & _ & new & Hlog & _).
    exists (EvSleep d :: new). rewrite Hlog. simpl. by rewrite <- !app_assoc.
  - destruct (download_loop_world url headers d max_retries fuel retries
                (after_get url headers w))
      as (_ & _ & _ & new & Hlog & _).
    exists new. rewrite Hlog. simpl. by rewrite <- !app_assoc.
  - by exists [].
Qed.

(** C7: the URL is the fixed string with the slug and the invoice id filled
    in; every request of [download_invoice_pdf] goes to the URL that
    [get_fakturoid_invoice_pdf_url] gives for the slug of the account, with
    an [Authorization] header of ['Bearer '] followed by the token of the
    account; and such a request is made: once the token check has passed
    and the loop is entered, the first thing the function does is a request
    to that URL with the three headers. *)
Theorem download_requests_pdf_url_with_bearer_token fuel invoice_id d max_retries w :
  (∀ id slug,
      get_fakturoid_invoice_pdf_url id slug
      = Ok ("https://app.fakturoid.cz/api/v3/accounts/" +:+ slug +:+ "/invoices/"
              +:+ str_of_int id +:+ "/download.pdf"))
  ∧ (∃ new,
      log (run_world (download_invoice_pdf fuel fa invoice_id d max_retries w))
      = log w ++ new
      ∧ ∀ url headers stream,
          EvGet url headers stream ∈ new →
          get_fakturoid_invoice_pdf_url invoice_id (fa_slug fa (session w)) = Ok url
          ∧ ("Authorization",
             "Bearer " +:+
             fa_token fa
               (session (run_world
                  (download_invoice_pdf fuel fa invoice_id d max_retries w))))
            ∈ headers)
  ∧ (∀ s1,
      fa_ensure_token fa (session w) = (Ok tt, s1) →
      0 < max_retries →
      (0 < fuel)%nat →
      ∃ url rest,
        get_fakturoid_invoice_pdf_url invoice_id (fa_slug fa (session w)) = Ok url
        ∧ log (run_world (download_invoice_pdf fuel fa invoice_id d max_retries w))
          = log w ++ EvEnsureToken
              :: EvGet url
                   [("User-Agent", fa_user_agent fa s1);
                    ("Authorization", "Bearer " +:+ fa_token fa s1);
                    ("Accept", "application/pdf")] true
              :: rest).
Proof.
  split; [done |]. split; [| intros s1 Htoken Hmax Hfuel].
  2:{ rewrite (download_invoice_pdf_ready _ _ _ _ _ s1) by done.
      destruct fuel as [|fuel]; [lia |].
      destruct (download_loop_requests_first
                  (pdf_url (fa_slug fa (session w)) invoice_id)
                  (pdf_headers (fa_user_agent fa s1) (fa_token fa s1))
                  fuel d max_retries 0 (after_call EvEnsureToken s1 w) Hmax)
        as [rest Hlog].
      exists (pdf_url (fa_slug fa (session w)) invoice_id), rest.
      split; [done |]. rewrite Hlog. simpl. by rewrite <- app_assoc. }
  destruct (fa_ensure_token fa (session w)) as [[[]|e] s1] eqn:Htoken.
  - rewrite (download_invoice_pdf_ready _ _ _ _ _ s1) by done.
    destruct (download_loop_world
                (pdf_url (fa_slug fa (session w)) invoice_id)
                (pdf_headers (fa_user_agent fa s1) (fa_token fa s1))
                d max_retries fuel 0 (after_call EvEnsureToken s1 w))
      as (Hsession & _ & _ & new & Hlog & Hnew).
    exists (EvEnsureToken :: new). split.
    { rewrite Hlog. simpl. by rewrite <- app_assoc. }
    intros url headers stream Hin. rewrite Hsession. simpl.
    apply elem_of_cons in Hin as [Hin | Hin]; [done |].
    rewrite Forall_forall in Hnew.
    destruct (Hnew _ Hin) as [[= -> -> ->] | Heq]; [| done].
    split; [done |]. unfold pdf_headers. set_solver.
  - rewrite (download_invoice_pdf_no_token _ _ _ _ _ e s1) by done.
    exists [EvEnsureToken]. split; [done |].
    intros url headers stream Hin.
    apply list_elem_of_singleton in Hin. done.
Qed.

End Download.

(** ** The download on concrete servers *)

Lemma download_returns_body_on_200_witness :
  (0 ≤ 1 < 2)%nat
  ∧ result_of (download_invoice_pdf 5 Demo.client 7 2 5 (Demo.world (Demo.script [204])))
    = Some (Ok (Some Demo.pdf)).
Proof.
  split; [lia |].
  apply (download_returns_body_on_200 Demo.client 5 7 2 5
           (Demo.world (Demo.script [204])) 1 (mkResponse 200 Demo.pdf));
    [vm_compute; lia | reflexivity | reflexivity].
Defined.

Lemma download_retries_on_204_witness :
  ∃ w', download_invoice_pdf 6 Demo.client 7 2 5 (Demo.world (Demo.always 204))
        = Done (Ok None) w'
        ∧ Z.of_nat (issued w' - 0) = 5.
Proof.
  destruct (download_retries_on_204 Demo.client 7 2 5 (Demo.world (Demo.always 204))
              (Demo.mkStore (Demo.invoices Demo.store) (Demo.subjects Demo.store) "t0k3n"))
    as (_ & _ & Hall); [lia | reflexivity |].
  destruct (Hall (λ k _, ex_intro _ (mkResponse 204 []) (conj eq_refl eq_refl)) 6%nat)
    as (w' & Hrun & Hissued & _); [simpl; lia |].
  exists w'. split; [exact Hrun | exact Hissued].
Defined.

(** C4 does not hold for every [retry_delay]: with a negative one,
    [time.sleep] raises on the first 204, so the function neither sleeps nor
    retries; against a server that always answers 204 it has issued one
    request, not [max_retries], when it raises. *)
Lemma download_neither_sleeps_nor_retries_with_negative_delay :
  result_of (download_invoice_pdf 6 Demo.client 7 (-1) 5 (Demo.world (Demo.always 204)))
  = Some (Raise (ValueError "sleep length must be non-negative"))
  ∧ issued (run_world (download_invoice_pdf 6 Demo.client 7 (-1) 5
                         (Demo.world (Demo.always 204)))) = 1%nat
  ∧ sleeps (log (run_world (download_invoice_pdf 6 Demo.client 7 (-1) 5
                              (Demo.world (Demo.always 204))))) = 0%nat.
Proof. split_and!; by vm_compute. Qed.

Lemma download_returns_None_when_exhausted_witness :
  result_of (download_invoice_pdf 3 Demo.client 7 2 2 (Demo.world (Demo.always 204)))
  = Some (Ok None).
Proof.
  destruct (download_returns_None_when_exhausted Demo.client 7 2 2
              (Demo.world (Demo.always 204))
              (Demo.mkStore (Demo.invoices Demo.store) (Demo.subjects Demo.store) "t0k3n"))
    as (_ & Hall); [lia | reflexivity |].
  apply Hall; [| simpl; lia].
  intros k _. exists (mkResponse 204 []). split; reflexivity.
Defined.

(** C1: [download_invoice_pdf] does not always terminate.  Against a server
    that answers every request with 202 (Accepted), a status that is
    neither 200 nor 204 nor an error, the loop is still running after any
    number of rounds: it has issued one request per round, it has not slept
    and it has counted no retry, although [max_retries] is 5. *)
Theorem download_never_gives_up_on_202 (fuel : nat) :
  result_of (download_invoice_pdf fuel Demo.client 7 default_retry_delay
               default_max_retries (Demo.world (Demo.always 202))) = None
  ∧ issued (run_world (download_invoice_pdf fuel Demo.client 7 default_retry_delay
                         default_max_retries (Demo.world (Demo.always 202)))) = fuel
  ∧ sleeps (log (run_world (download_invoice_pdf fuel Demo.client 7 default_retry_delay
                              default_max_retries (Demo.world (Demo.always 202))))) = 0%nat.
Proof.
  erewrite download_invoice_pdf_ready by reflexivity.
  edestruct (download_loop_spins (St := Demo.Store)) as (w' & -> & Hissued & Hsleeps);
    [| | split_and!; [done | exact Hissued | exact Hsleeps]].
  - done.
  - intros k _. exists (mkResponse 202 []). split; [done |].
    unfold handled_status. simpl. lia.
Qed.

(** C3: a status outside 2xx does not always make [download_invoice_pdf]
    raise.  A 304 (Not Modified) passes [raise_for_status], so the loop goes
    on to a second request and returns what that one brings; against a
    server that keeps answering 304 it never raises and never returns. *)
Theorem download_does_not_raise_on_304 :
  result_of (download_invoice_pdf 3 Demo.client 7 2 5 (Demo.world (Demo.script [304])))
  = Some (Ok (Some Demo.pdf))
  ∧ issued (run_world (download_invoice_pdf 3 Demo.client 7 2 5
                         (Demo.world (Demo.script [304])))) = 2%nat
  ∧ ∀ fuel, result_of (download_invoice_pdf fuel Demo.client 7 2 5
                         (Demo.world (Demo.always 304))) = None.
Proof.
  split_and!; [by vm_compute | by vm_compute |].
  intros fuel. erewrite download_invoice_pdf_ready by reflexivity.
  edestruct (download_loop_spins (St := Demo.Store)) as (w' & -> & _); [| | done].
  - done.
  - intros k _. exists (mkResponse 304 []). split; [done |].
    unfold handled_status. simpl. lia.
Qed.

(** ** [update_invoice] and [delete_invoice] *)


(** On any other name [setattr] stores into the instance [__dict__]. *)
Lemma setattr_ordinary (o : Obj) (name : string) (v : PyValue) :
  special_attribute name = false →
  setattr o name v = Ok (mkObj (class_names o) (<[name := v]> (attrs o))).
Proof.
  unfold special_attribute, setattr. intros Hname.
  apply orb_false_iff in Hname as [Hname Hweak].
  apply orb_false_iff in Hname as [Hdict Hclass].
  by rewrite Hdict, Hclass, Hweak.
Qed.

(** Storing under a name the object already has leaves every answer of
    [hasattr] as it was. *)
Lemma hasattr_insert (o : Obj) (field name : string) (v : PyValue) :
  hasattr o field = true →
  hasattr (mkObj (class_names o) (<[field := v]> (attrs o))) name = hasattr o name.
Proof.
  unfold hasattr. simpl. intros Hfield.
  destruct (decide (field = name)) as [-> | Hne].
  - rewrite Hfield. rewrite lookup_insert_eq.
    by destruct (special_attribute name), (bool_decide (name ∈ class_names o)).
  - by rewrite lookup_insert_ne.
Qed.

Lemma hasattr_false_lookup (o : Obj) (name : string) :
  hasattr o name = false → attrs o !! name = None.
Proof.
  unfold hasattr. intros Hname.
  apply orb_false_iff in Hname as [_ Hattr].
  apply bool_decide_eq_false in Hattr.
  destruct (attrs o !! name); [| done]. exfalso. apply Hattr. by eexists.
Qed.

Lemma dict_of_items_snoc (items : list (string * PyValue)) key value :
  dict_of_items (items ++ [(key, value)]) = <[key := value]> (dict_of_items items).
Proof. unfold dict_of_items. by rewrite foldl_app. Qed.

(** The update loop run on two lists, one after the other. *)
Lemma update_loop_app (items1 items2 : list (string * PyValue)) (invoice : Obj) :
  update_loop (items1 ++ items2) invoice
  = match update_loop items1 invoice with
    | Ok updated => update_loop items2 updated
    | Raise e => Raise e
    end.
Proof.
  revert invoice. induction items1 as [|[field value] items1 IH]; intros invoice; simpl.
  - done.
  - destruct (hasattr invoice field); [| apply IH].
    destruct (setattr invoice field value); [apply IH | done].
Qed.

(** What the update loop leaves when no key is one of the special names:
    it does not raise, the class and the answers of [hasattr] are as
    before, and an attribute holds the value of the last item that names
    it, if the invoice had the attribute, and its old value otherwise. *)
Lemma update_loop_ordinary (items : list (string * PyValue)) (invoice : Obj) :
  Forall (λ item, special_attribute item.1 = false) items →
  ∃ updated,
    update_loop items invoice = Ok updated
    ∧ class_names updated = class_names invoice
    ∧ (∀ name, hasattr updated name = hasattr invoice name)
    ∧ ∀ field,
        attrs updated !! field
        = if hasattr invoice field
          then match dict_of_items items !! field with
               | Some value => Some value
               | None => attrs invoice !! field
               end
          else attrs invoice !! field.
Proof.
  induction items as [|[key value] items IH] using rev_ind; intros Hitems.
  - exists invoice. split_and!; [done | done | done |].
    intros field. unfold dict_of_items. simpl. rewrite lookup_empty.
    by destruct (hasattr invoice field).
  - apply Forall_app in Hitems as [Hitems Hlast].
    apply Forall_inv in Hlast. simpl in Hlast.
    destruct (IH Hitems) as (updated & Hrun & Hclass & Hhas & Hattrs).
    rewrite update_loop_app, Hrun. simpl.
    rewrite Hhas. destruct (hasattr invoice key) eqn:Hkey.
    + rewrite setattr_ordinary by done.
      eexists. split_and!; [done | by simpl | |].
      * intros name. rewrite hasattr_insert by (by rewrite Hhas). apply Hhas.
      * intros field. simpl. rewrite dict_of_items_snoc.
        destruct (decide (key = field)) as [-> | Hne].
        -- by rewrite !lookup_insert_eq, Hkey.
        -- rewrite !lookup_insert_ne by done. apply Hattrs.
    + exists updated. split_and!; [done | done | done |].
      intros field. rewrite dict_of_items_snoc.
      destruct (decide (key = field)) as [-> | Hne].
      * rewrite Hkey. rewrite Hattrs, Hkey. done.
      * rewrite lookup_insert_ne by done. apply Hattrs.
Qed.

(** With distinct keys, as the items of a [dict] have, the mapping holds
    each item under its key. *)
Lemma dict_of_items_NoDup (items : list (string * PyValue)) :
  NoDup items.*1 → dict_of_items items = list_to_map items.
Proof.
  induction items as [|[key value] items IH] using rev_ind; intros Hnodup; [done |].
  rewrite fmap_app in Hnodup. apply NoDup_app in Hnodup as (Hnodup & Hfresh & _).
  rewrite dict_of_items_snoc, IH by done.
  apply map_eq. intros field.
  destruct (decide (key = field)) as [-> | Hne].
  - rewrite lookup_insert_eq. symmetry.
    apply elem_of_list_to_map_1.
    + rewrite fmap_app. apply NoDup_app. split_and!; [done | | ].
      * intros x Hx Hx'. by apply (Hfresh x).
      * simpl. apply NoDup_singleton.
    + apply elem_of_app. right. by apply list_elem_of_singleton.
  - rewrite lookup_insert_ne by done.
    destruct (list_to_map items !! field) as [v|] eqn:Hv.
    + symmetry. apply elem_of_list_to_map_1.
      * rewrite fmap_app. apply NoDup_app. split_and!; [done | | ].
        -- intros x Hx Hx'. by apply (Hfresh x).
        -- simpl. apply NoDup_singleton.
      * apply elem_of_app. left. by apply elem_of_list_to_map_2.
    + symmetry. apply not_elem_of_list_to_map_1.
      rewrite fmap_app. intros Hin. apply elem_of_app in Hin as [Hin | Hin].
      * by apply not_elem_of_list_to_map_2 in Hv.
      * simpl in Hin. apply list_elem_of_singleton in Hin. congruence.
Qed.

(** The loop raises a [TypeError] or an [AttributeError] and nothing
    else. *)
Lemma update_loop_raises (items : list (string * PyValue)) (invoice : Obj) e :
  update_loop items invoice = Raise e →
  (∃ msg, e = TypeError msg) ∨ (∃ msg, e = AttributeError msg).
Proof.
  revert invoice. induction items as [|[field value] items IH]; intros invoice; simpl.
  - done.
  - destruct (hasattr invoice field); [| apply IH].
    destruct (setattr invoice field value) as [o|e'] eqn:Hset; [apply IH |].
    intros [= ->]. unfold setattr in Hset.
    destruct (String.eqb field "__dict__").
    { destruct value; try done; injection Hset as <-; left; by eexists. }
    destruct (String.eqb field "__class__").
    { injection Hset as <-. left. by eexists. }
    destruct (String.eqb field "__weakref__"); [| done].
    injection Hset as <-. right. by eexists.
Qed.

Section UpdateDelete.

Context {St : Type} (fa : Fakturoid St).
Implicit Types (w : World St) (invoice_id : Z) (updated_data : list (string * PyValue)).

Lemma update_invoice_found invoice_id updated_data w invoice s1 :
  fa_invoice fa invoice_id (session w) = (Ok (Some invoice), s1) →
  update_invoice fa invoice_id updated_data w
  = match update_loop updated_data invoice with
    | Ok updated =>
        call (EvSaveInvoice updated) (fa_save_invoice fa updated)
          (after_call (EvInvoice invoice_id) s1 w)
    | Raise e => (Raise e, after_call (EvInvoice invoice_id) s1 w)
    end.
Proof.
  intros Hlookup. unfold update_invoice, bind, lift, call at 1. rewrite Hlookup.
  fold (after_call (EvInvoice invoice_id) s1 w).
  by destruct (update_loop updated_data invoice).
Qed.

Lemma update_invoice_not_found invoice_id updated_data w s1 :
  fa_invoice fa invoice_id (session w) = (Ok None, s1) →
  update_invoice fa invoice_id updated_data w
  = (Raise (ValueError (not_found_message invoice_id)),
     after_call (EvInvoice invoice_id) s1 w).
Proof. intros Hlookup. unfold update_invoice, bind, call. by rewrite Hlookup. Qed.

Lemma delete_invoice_found invoice_id w invoice s1 :
  fa_invoice fa invoice_id (session w) = (Ok (Some invoice), s1) →
  delete_invoice fa invoice_id w
  = call (EvDelete invoice) (fa_delete fa invoice)
      (after_call (EvInvoice invoice_id) s1 w).
Proof. intros Hlookup. unfold delete_invoice, bind, call at 1. by rewrite Hlookup. Qed.

Lemma delete_invoice_not_found invoice_id w s1 :
  fa_invoice fa invoice_id (session w) = (Ok None, s1) →
  delete_invoice fa invoice_id w
  = (Raise (ValueError (not_found_message invoice_id)),
     after_call (EvInvoice invoice_id) s1 w).
Proof. intros Hlookup. unfold delete_invoice, bind, call. by rewrite Hlookup. Qed.

Lemma call_result {A} (ev : Event) (op : St → Res A * St) w :
  (call ev op w).1 = (op (session w)).1.
Proof. unfold call. by destruct (op (session w)). Qed.

Lemma call_log {A} (ev : Event) (op : St → Res A * St) w :
  log (call ev op w).2 = log w ++ [ev].
Proof. unfold call. by destruct (op (session w)). Qed.

(** C6, as the code has it: [update_invoice] and [delete_invoice] raise a
    [ValueError] of their own, the "not found" one, raised before anything
    is saved or deleted, exactly when the lookup of the invoice yields no
    invoice.  When an invoice is found they raise none of their own:
    [delete_invoice] returns or raises what [fa.delete] does, and
    [update_invoice] what [fa.save] does unless a [setattr] of the update
    loop has raised before; nothing is caught, so an exception of the
    client, a [ValueError] too, comes through. *)
Theorem update_and_delete_raise_not_found_iff_lookup_empty
    invoice_id updated_data w found s1 :
  fa_invoice fa invoice_id (session w) = (Ok found, s1) →
  ((raises_ValueError (update_invoice fa invoice_id updated_data w).1 = true
    ∧ log (update_invoice fa invoice_id updated_data w).2
      = log w ++ [EvInvoice invoice_id])
   ↔ found = None)
  ∧ ((raises_ValueError (delete_invoice fa invoice_id w).1 = true
      ∧ log (delete_invoice fa invoice_id w).2 = log w ++ [EvInvoice invoice_id])
     ↔ found = None)
  ∧ (found = None →
     update_invoice fa invoice_id updated_data w
     = (Raise (ValueError (not_found_message invoice_id)),
        after_call (EvInvoice invoice_id) s1 w)
     ∧ delete_invoice fa invoice_id w
       = (Raise (ValueError (not_found_message invoice_id)),
          after_call (EvInvoice invoice_id) s1 w))
  ∧ (∀ invoice, found = Some invoice →
       delete_invoice fa invoice_id w
       = call (EvDelete invoice) (fa_delete fa invoice)
           (after_call (EvInvoice invoice_id) s1 w)
       ∧ update_invoice fa invoice_id updated_data w
         = match update_loop updated_data invoice with
           | Ok updated =>
               call (EvSaveInvoice updated) (fa_save_invoice fa updated)
                 (after_call (EvInvoice invoice_id) s1 w)
           | Raise e => (Raise e, after_call (EvInvoice invoice_id) s1 w)
           end).
Proof.
  intros Hlookup. destruct found as [invoice|].
  - rewrite (update_invoice_found _ _ _ invoice s1) by done.
    rewrite (delete_invoice_found _ _ invoice s1) by done.
    split_and!.
    + split; [| done]. intros [Hraise Hlog]. exfalso.
      destruct (update_loop updated_data invoice) as [updated|e] eqn:Hloop.
      * rewrite call_log in Hlog. simpl in Hlog.
        apply (f_equal length) in Hlog. rewrite !length_app in Hlog. simpl in Hlog. lia.
      * simpl in Hraise.
        by destruct (update_loop_raises _ _ _ Hloop) as [[msg ->] | [msg ->]].
    + split; [| done]. intros [_ Hlog]. exfalso.
      rewrite call_log in Hlog. simpl in Hlog.
      apply (f_equal length) in Hlog. rewrite !length_app in Hlog. simpl in Hlog. lia.
    + done.
    + by intros invoice' [= <-].
  - rewrite (update_invoice_not_found _ _ _ s1) by done.
    rewrite (delete_invoice_not_found _ _ s1) by done.
    split_and!; [done | done | done | done].
Qed.

(** C8, as the code has it: for a retrieved invoice and an [updated_data]
    (a dict, so with distinct keys) none of whose keys is [__dict__],
    [__class__] or [__weakref__], the object [update_invoice] hands to
    [fa.save] differs from the retrieved
    one only in the attributes that are keys of [updated_data] and exist on
    the invoice, which hold the new values; a key that is no attribute of
    the invoice adds nothing, and an attribute that is no key keeps its
    value. *)
Theorem update_invoice_changes_only_named_existing_attributes
    invoice_id updated_data w invoice s1 :
  fa_invoice fa invoice_id (session w) = (Ok (Some invoice), s1) →
  NoDup updated_data.*1 →
  Forall (λ item, special_attribute item.1 = false) updated_data →
  ∃ updated,
    update_invoice fa invoice_id updated_data w
    = call (EvSaveInvoice updated) (fa_save_invoice fa updated)
        (after_call (EvInvoice invoice_id) s1 w)
    ∧ class_names updated = class_names invoice
    ∧ (∀ field value,
         (field, value) ∈ updated_data → hasattr invoice field = true →
         attrs updated !! field = Some value)
    ∧ (∀ field, hasattr invoice field = false →
         hasattr updated field = false ∧ attrs updated !! field = None)
    ∧ (∀ field, field ∉ updated_data.*1 →
         attrs updated !! field = attrs invoice !! field).
Proof.
  intros Hlookup Hnodup Hordinary.
  destruct (update_loop_ordinary updated_data invoice Hordinary)
    as (updated & Hrun & Hclass & Hhas & Hattrs).
  exists updated. rewrite (update_invoice_found _ _ _ invoice s1), Hrun by done.
  rewrite dict_of_items_NoDup in Hattrs by done.
  split_and!; [done | done | | |].
  - intros field value Hin Hfield. rewrite Hattrs, Hfield.
    by rewrite (elem_of_list_to_map_1 _ _ _ Hnodup Hin).
  - intros field Hfield. split; [by rewrite Hhas |].
    rewrite Hattrs, Hfield. by apply hasattr_false_lookup.
  - intros field Hfield. rewrite Hattrs.
    rewrite (not_elem_of_list_to_map_1 _ _ Hfield).
    by destruct (hasattr invoice field).
Qed.

End UpdateDelete.

Lemma update_and_delete_raise_not_found_iff_lookup_empty_witness :
  update_invoice Demo.client 8 [("note", PyStr "paid")] (Demo.world (Demo.always 200))
  = (Raise (ValueError "Invoice with id 8 not found."),
     after_call (EvInvoice 8) Demo.store (Demo.world (Demo.always 200)))
  ∧ delete_invoice Demo.client 7 (Demo.world (Demo.always 200))
    = call (EvDelete Demo.invoice7) (fa_delete Demo.client Demo.invoice7)
        (after_call (EvInvoice 7) Demo.store (Demo.world (Demo.always 200))).
Proof.
  split.
  - destruct (update_and_delete_raise_not_found_iff_lookup_empty Demo.client 8
                [("note", PyStr "paid")] (Demo.world (Demo.always 200))
                None Demo.store eq_refl) as (_ & _ & Hnone & _).
    destruct (Hnone eq_refl) as [Hupdate _]. exact Hupdate.
  - destruct (update_and_delete_raise_not_found_iff_lookup_empty Demo.client 7
                [] (Demo.world (Demo.always 200))
                (Some Demo.invoice7) Demo.store eq_refl) as (_ & _ & _ & Hsome).
    destruct (Hsome Demo.invoice7 eq_refl) as [Hdelete _]. exact Hdelete.
Defined.

(** C6 does not hold as it reads: with an invoice found, a [ValueError]
    raised by [fa.save] or [fa.delete] comes out of [update_invoice] and
    [delete_invoice], which catch nothing. *)
Lemma update_and_delete_pass_on_ValueError_of_client :
  (fa_invoice Picky.client 7 Demo.store).1 = Ok (Some Demo.invoice7)
  ∧ (update_invoice Picky.client 7 [("note", PyStr "paid")]
       (Demo.world (Demo.always 200))).1
    = Raise (ValueError "invoice is locked")
  ∧ (delete_invoice Picky.client 7 (Demo.world (Demo.always 200))).1
    = Raise (ValueError "invoice is locked")
  ∧ ¬ (∀ (fa : Fakturoid Demo.Store) invoice_id updated_data w found s1,
         fa_invoice fa invoice_id (session w) = (Ok found, s1) →
         (raises_ValueError (update_invoice fa invoice_id updated_data w).1 = true
          ↔ found = None)).
Proof.
  split_and!; [by vm_compute | by vm_compute | by vm_compute |].
  intros Hclaim.
  destruct (Hclaim Picky.client 7 [("note", PyStr "paid")]
              (Demo.world (Demo.always 200)) (Some Demo.invoice7) Demo.store)
    as [Hfound _]; [by vm_compute |].
  discriminate Hfound. by vm_compute.
Qed.

Lemma update_invoice_changes_only_named_existing_attributes_witness :
  ∃ updated,
    (update_invoice Demo.client 7 [("note", PyStr "paid"); ("colour", PyStr "red")]
       (Demo.world (Demo.always 200))).1 = Ok updated
    ∧ attrs updated !! "note" = Some (PyStr "paid")
    ∧ attrs updated !! "colour" = None
    ∧ attrs updated !! "number" = Some (PyStr "2024-0007").
Proof.
  destruct (update_invoice_changes_only_named_existing_attributes Demo.client 7
              [("note", PyStr "paid"); ("colour", PyStr "red")]
              (Demo.world (Demo.always 200)) Demo.invoice7 Demo.store)
    as (updated & Hrun & _ & Hnew & Hignored & Hkept).
  - done.
  - apply (bool_decide_unpack _). by vm_compute.
  - repeat constructor.
  - exists updated. split_and!.
    + by rewrite Hrun.
    + apply (Hnew "note"); [| by vm_compute]. apply elem_of_cons. by left.
    + by apply Hignored.
    + rewrite Hkept; [done |]. apply (bool_decide_unpack _). by vm_compute.
Defined.

(** C8 does not hold for every [updated_data]: every object has the
    attribute [__dict__], and setting it to a dictionary replaces all the
    attributes of the instance, so the fields the update does not name are
    gone. *)
Lemma update_invoice_with_dict_key_drops_unnamed_fields :
  ∃ updated,
    (update_invoice Demo.client 7 [("__dict__", PyDict [("note", PyStr "paid")])]
       (Demo.world (Demo.always 200))).1 = Ok updated
    ∧ attrs Demo.invoice7 !! "number" = Some (PyStr "2024-0007")
    ∧ attrs updated !! "number" = None
    ∧ attrs updated !! "id" = None.
Proof. eexists. split_and!; by vm_compute. Qed.

(** ** [create_fakturoid_invoice_lines] *)

Lemma invoice_line_of_ok (line : Dict) name unit_price :
  line !! "name" = Some name → line !! "unit_price" = Some unit_price →
  ∃ l, invoice_line_of line = Ok l
       ∧ InvoiceLine.name l = name
       ∧ InvoiceLine.unit_price l = unit_price
       ∧ InvoiceLine.quantity l = default (PyInt 1) (line !! "quantity")
       ∧ InvoiceLine.unit_name l = default (PyStr "ks") (line !! "unit_name")
       ∧ InvoiceLine.vat_rate l = default (PyInt 0) (line !! "vat_rate")
       ∧ InvoiceLine.unit_price_without_vat l
         = default unit_price (line !! "unit_price_without_vat").
Proof.
  intros Hname Hprice. unfold invoice_line_of, dict_item.
  rewrite Hname, Hprice. eexists. split; [done |]. by split_and!.
Qed.

Lemma invoice_line_of_missing_name (line : Dict) :
  line !! "name" = None → invoice_line_of line = Raise (KeyError "name").
Proof. intros Hname. unfold invoice_line_of, dict_item. by rewrite Hname. Qed.

Lemma invoice_line_of_missing_unit_price (line : Dict) :
  is_Some (line !! "name") → line !! "unit_price" = None →
  invoice_line_of line = Raise (KeyError "unit_price").
Proof.
  intros [name Hname] Hprice. unfold invoice_line_of, dict_item.
  by rewrite Hname, Hprice.
Qed.

(** The loop appends one line per dictionary, in order, to what it has. *)
Lemma lines_loop_ok (data : list Dict) (lines : list InvoiceLine.t) :
  Forall (λ line : Dict, is_Some (line !! "name") ∧ is_Some (line !! "unit_price")) data →
  ∃ new, lines_loop data lines = Ok (lines ++ new)
         ∧ Forall2 (λ line l, invoice_line_of line = Ok l) data new.
Proof.
  intros Hdata. revert lines.
  induction Hdata as [|line data [[name Hname] [price Hprice]] Hdata IH]; intros lines.
  - exists []. simpl. rewrite app_nil_r. split; [done | constructor].
  - destruct (invoice_line_of_ok line name price) as (l & Hl & _); [done | done |].
    destruct (IH (lines ++ [l])) as (new & Hloop & Hnew).
    exists (l :: new). simpl. rewrite Hl, Hloop, <- app_assoc.
    split; [done |]. by constructor.
Qed.

(** C9, as the code has it: when every dictionary of the input has the two
    required keys ['name'] and ['unit_price'], the function returns a list
    of the same length with the line of the i-th dictionary at position i,
    where a missing ['quantity'] is 1, a missing ['unit_name'] is ['ks'], a
    missing ['vat_rate'] is 0 and a missing ['unit_price_without_vat'] is
    the ['unit_price'] of the line. *)
Theorem create_fakturoid_invoice_lines_with_required_keys (data : list Dict) :
  Forall (λ line : Dict, is_Some (line !! "name") ∧ is_Some (line !! "unit_price")) data →
  ∃ lines,
    create_fakturoid_invoice_lines data = Ok lines
    ∧ length lines = length data
    ∧ ∀ (i : nat) (line : Dict),
        data !! i = Some line →
        ∃ l, lines !! i = Some l
             ∧ Some (InvoiceLine.name l) = line !! "name"
             ∧ Some (InvoiceLine.unit_price l) = line !! "unit_price"
             ∧ InvoiceLine.quantity l = default (PyInt 1) (line !! "quantity")
             ∧ InvoiceLine.unit_name l = default (PyStr "ks") (line !! "unit_name")
             ∧ InvoiceLine.vat_rate l = default (PyInt 0) (line !! "vat_rate")
             ∧ InvoiceLine.unit_price_without_vat l
               = default (InvoiceLine.unit_price l) (line !! "unit_price_without_vat").
Proof.
  intros Hdata.
  destruct (lines_loop_ok data [] Hdata) as (lines & Hloop & Hlines).
  exists lines. split_and!.
  - done.
  - symmetry. by eapply Forall2_length.
  - intros i line Hi.
    destruct (Forall2_lookup_l _ _ _ _ _ Hlines Hi) as (l & Hl & Hline).
    exists l. split; [done |].
    rewrite Forall_forall in Hdata.
    destruct (Hdata line) as [[name Hname] [price Hprice]].
    { by eapply list_elem_of_lookup_2. }
    destruct (invoice_line_of_ok line name price) as (l' & Hl' & Hn & Hp & Hrest);
      [done | done |].
    rewrite Hline in Hl'. injection Hl' as <-.
    destruct Hrest as (Hq & Hu & Hv & Hw).
    rewrite Hname, Hprice, Hn, Hp. by split_and!.
Qed.

Lemma create_fakturoid_invoice_lines_with_required_keys_witness :
  ∃ lines,
    create_fakturoid_invoice_lines
      [ {[ "name" := PyStr "Hosting"; "unit_price" := PyInt 300 ]};
        {[ "name" := PyStr "Domain"; "unit_price" := PyInt 250; "quantity" := PyInt 2 ]} ]
    = Ok lines
    ∧ length lines = 2%nat.
Proof.
  destruct (create_fakturoid_invoice_lines_with_required_keys
              [ {[ "name" := PyStr "Hosting"; "unit_price" := PyInt 300 ]};
                {[ "name" := PyStr "Domain"; "unit_price" := PyInt 250;
                   "quantity" := PyInt 2 ]} ])
    as (lines & Hrun & Hlength & _).
  - repeat constructor; by eexists.
  - exists lines. split; [exact Hrun | exact Hlength].
Defined.

(** C9 does not hold for every input list: a dictionary without ['name']
    makes the function raise [KeyError], so no list comes back at all. *)
Lemma create_fakturoid_invoice_lines_requires_name :
  create_fakturoid_invoice_lines [ {[ "unit_price" := PyInt 300 ]} ]
  = Raise (KeyError "name")
  ∧ ¬ (∀ data : list Dict,
         ∃ lines, create_fakturoid_invoice_lines data = Ok lines
                  ∧ length lines = length data).
Proof.
  split; [done |].
  intros Hall. destruct (Hall [ {[ "unit_price" := PyInt 300 ]} ]) as (lines & Hrun & _).
  discriminate Hrun.
Qed.

(** ** [create_fakturoid_subject] *)

(** The search loop finds the first subject with the email looked for. *)
Lemma first_with_email_found (data : Dict) email (subjects : list Subject.t) :
  data !! "email" = Some email →
  (∃ s, s ∈ subjects ∧ py_eq (Subject.email s) email = true) →
  ∃ before subject after,
    subjects = before ++ subject :: after
    ∧ Forall (λ s, py_eq (Subject.email s) email = false) before
    ∧ py_eq (Subject.email subject) email = true
    ∧ first_with_email data subjects = Ok (Some subject).
Proof.
  intros Hemail. induction subjects as [|s subjects IH]; intros (x & Hin & Hx).
  { by apply elem_of_nil in Hin. }
  simpl. unfold dict_item. rewrite Hemail.
  destruct (py_eq (Subject.email s) email) eqn:Hs.
  - exists [], s, subjects. split_and!; [done | constructor | done | done].
  - apply elem_of_cons in Hin as [-> | Hin]; [congruence |].
    destruct IH as (before & subject & after & -> & Hbefore & Hsubject & Hfound).
    { by exists x. }
    exists (s :: before), subject, after.
    split_and!; [done | by constructor | done | done].
Qed.

Lemma first_with_email_none (data : Dict) email (subjects : list Subject.t) :
  data !! "email" = Some email →
  Forall (λ s, py_eq (Subject.email s) email = false) subjects →
  first_with_email data subjects = Ok None.
Proof.
  intros Hemail Hall. induction Hall as [|s subjects Hs Hall IH]; [done |].
  simpl. unfold dict_item. by rewrite Hemail, Hs.
Qed.

Section CreateSubject.

Context {St : Type} (fa : Fakturoid St).
Implicit Types (w : World St) (data : Dict).

Lemma build_and_save_subject_eq data name w :
  data !! "name" = Some name →
  ∃ new_subject,
    new_subject_of data w = (Ok new_subject, w)
    ∧ Subject.name new_subject = name
    ∧ Subject.email new_subject = dict_get data "email"
    ∧ build_and_save_subject (Some fa) data w
      = call (EvSaveSubject new_subject) (fa_save_subject fa new_subject) w.
Proof.
  intros Hname. unfold build_and_save_subject, new_subject_of, bind, lift, dict_item, ret.
  rewrite Hname. eexists. by split_and!.
Qed.

(** C10: with a non-empty ['email'] in [data], when the search of the
    client answers some subject whose email equals it, the function returns
    the first such subject of the answer, and the search is the only call
    it has made: no subject is built or saved.  When no subject of the
    answer has that email, the function goes on to build the new subject
    and hand it to [fa.save]. *)
Theorem create_fakturoid_subject_returns_existing data w email subjects s1 :
  data !! "email" = Some email →
  truthy email = true →
  fa_subjects_search fa email (session w) = (Ok subjects, s1) →
  ((∃ s, s ∈ subjects ∧ py_eq (Subject.email s) email = true) →
     ∃ before subject after,
       subjects = before ++ subject :: after
       ∧ Forall (λ s, py_eq (Subject.email s) email = false) before
       ∧ py_eq (Subject.email subject) email = true
       ∧ create_fakturoid_subject (Some fa) data w
         = (Ok subject, after_call (EvSearch email) s1 w))
  ∧ (Forall (λ s, py_eq (Subject.email s) email = false) subjects →
     create_fakturoid_subject (Some fa) data w
     = build_and_save_subject (Some fa) data (after_call (EvSearch email) s1 w)
     ∧ ∀ name, data !! "name" = Some name →
         ∃ new_subject,
           Subject.name new_subject = name
           ∧ Subject.email new_subject = email
           ∧ create_fakturoid_subject (Some fa) data w
             = call (EvSaveSubject new_subject) (fa_save_subject fa new_subject)
                 (after_call (EvSearch email) s1 w)).
Proof.
  intros Hemail Htruthy Hsearch.
  assert (∀ found,
            first_with_email data subjects = Ok found →
            create_fakturoid_subject (Some fa) data w
            = match found with
              | Some subject => (Ok subject, after_call (EvSearch email) s1 w)
              | None => build_and_save_subject (Some fa) data
                          (after_call (EvSearch email) s1 w)
              end) as Hrun.
  { intros found Hfound. unfold create_fakturoid_subject, dict_get.
    rewrite Hemail. simpl. rewrite Htruthy.
    unfold bind, lift, dict_item, call at 1. rewrite Hemail, Hsearch.
    fold (after_call (EvSearch email) s1 w). rewrite Hfound.
    by destruct found. }
  split.
  - intros Hmatch.
    destruct (first_with_email_found data email subjects Hemail Hmatch)
      as (before & subject & after & Hsplit & Hbefore & Hsubject & Hfound).
    exists before, subject, after. split_and!; [done | done | done |].
    by rewrite (Hrun _ Hfound).
  - intros Hnone.
    pose proof (first_with_email_none data email subjects Hemail Hnone) as Hfound.
    rewrite (Hrun _ Hfound). split; [done |].
    intros name Hname.
    destruct (build_and_save_subject_eq data name (after_call (EvSearch email) s1 w) Hname)
      as (new_subject & _ & Hn & He & Hsave).
    exists new_subject. split_and!; [done | | done].
    rewrite He. unfold dict_get. by rewrite Hemail.
Qed.

End CreateSubject.

Lemma create_fakturoid_subject_returns_existing_witness :
  (create_fakturoid_subject (Some Demo.client)
     {[ "email" := PyStr "bob@example.com"; "name" := PyStr "Robert" ]}
     (Demo.world (Demo.always 200))).1
  = Ok (Demo.subject_named "Bob" "bob@example.com").
Proof.
  destruct (create_fakturoid_subject_returns_existing Demo.client
              {[ "email" := PyStr "bob@example.com"; "name" := PyStr "Robert" ]}
              (Demo.world (Demo.always 200)) (PyStr "bob@example.com")
              (Demo.subjects Demo.store) Demo.store)
    as [Hexisting _]; [by vm_compute | done | done |].
  destruct Hexisting as (before & subject & after & Hsplit & Hbefore & Hsubject & Hrun).
  { exists (Demo.subject_named "Bob" "bob@example.com"). split; [| done].
    apply elem_of_cons. right. apply elem_of_cons. by left. }
  rewrite Hrun. simpl. f_equal.
  destruct before as [|b0 [|b1 before]]; simpl in Hsplit.
  - injection Hsplit as <- _. discriminate Hsubject.
  - by injection Hsplit as _ <- _.
  - injection Hsplit as _ _ Hnil. by destruct before.
Defined.

(** ** The URL on concrete arguments *)

Example pdf_url_of_invoice_42 :
  get_fakturoid_invoice_pdf_url 42 "acme"
  = Ok "https://app.fakturoid.cz/api/v3/accounts/acme/invoices/42/download.pdf".
Proof. by vm_compute. Qed.

Example pdf_url_of_invoice_0 :
  get_fakturoid_invoice_pdf_url 0 "a{}b"
  = Ok "https://app.fakturoid.cz/api/v3/accounts/a{}b/invoices/0/download.pdf".
Proof. by vm_compute. Qed.

Lemma download_requests_pdf_url_with_bearer_token_witness :
  ∃ rest,
    log (run_world (download_invoice_pdf 2 Demo.client 7 2 5
                      (Demo.world (Demo.script []))))
    = [EvEnsureToken;
       EvGet "https://app.fakturoid.cz/api/v3/accounts/acme/invoices/7/download.pdf"
         [("User-Agent", "utils (dev@example.com)");
          ("Authorization", "Bearer t0k3n");
          ("Accept", "application/pdf")] true]
      ++ rest.
Proof.
  destruct (download_requests_pdf_url_with_bearer_token Demo.client 2 7 2 5
              (Demo.world (Demo.script [])))
    as (_ & _ & Hfirst).
  destruct (Hfirst (Demo.mkStore (Demo.invoices Demo.store)
                      (Demo.subjects Demo.store) "t0k3n"))
    as (url & rest & Hurl & Hlog); [reflexivity | lia | lia |].
  vm_compute in Hurl. injection Hurl as <-.
  exists rest. exact Hlog.
Defined.

(** * Further properties *)

(** ** The replies that end the download loop *)

Section DownloadEnds.

Context {St : Type}.
Variables (url : string) (headers : list (string * string)) (d max_retries : Z).
Implicit Types (w : World St) (fuel k n : nat) (retries : Z).

Lemma download_loop_terminal fuel retries w res :
  retries < max_retries →
  terminal_result d (replies w (issued w)) = Some res →
  download_loop (S fuel) url headers d max_retries retries w
  = Done res (after_get url headers w).
Proof.
  intros Hlt Hres. rewrite download_loop_round by done.
  unfold terminal_result in Hres.
  destruct (replies w (issued w)) as [r|e] eqn:Hreply.
  - destruct (Z.eqb_spec (status_code r) 200) as [H200|H200].
    { injection Hres as <-. by rewrite (attempt_200 _ _ _ _ _ r). }
    destruct (Z.eqb_spec (status_code r) 204) as [H204|H204].
    { destruct (Z.ltb_spec d 0) as [Hd|Hd]; [| done]. injection Hres as <-.
      by rewrite (attempt_204_negative_delay _ _ _ _ _ r). }
    destruct (Z.leb_spec 400 (status_code r)) as [Hlo|Hlo]; [| done].
    destruct (Z.ltb_spec (status_code r) 600) as [Hhi|Hhi]; [| done].
    injection Hres as <-. by rewrite (attempt_error_status _ _ _ _ _ r).
  - injection Hres as <-. by rewrite (attempt_failed _ _ _ _ _ e).
Qed.

Lemma download_loop_not_terminal fuel retries w :
  retries < max_retries →
  terminal_result d (replies w (issued w)) = None →
  ∃ retries' w1,
    download_loop (S fuel) url headers d max_retries retries w
    = download_loop fuel url headers d max_retries retries' w1
    ∧ issued w1 = S (issued w) ∧ replies w1 = replies w.
Proof.
  intros Hlt Hres. unfold terminal_result in Hres.
  destruct (replies w (issued w)) as [r|e] eqn:Hreply; [| done].
  destruct (Z.eqb_spec (status_code r) 200) as [H200|H200]; [done |].
  destruct (Z.eqb_spec (status_code r) 204) as [H204|H204].
  - destruct (Z.ltb_spec d 0) as [Hd|Hd]; [done |].
    eexists _, _. split; [by apply (download_loop_204 _ _ _ _ _ _ _ r) | by split].
  - assert (¬ (400 ≤ status_code r < 600)) as Herr.
    { destruct (Z.leb_spec 400 (status_code r)) as [Hlo|Hlo]; [| lia].
      destruct (Z.ltb_spec (status_code r) 600) as [Hhi|Hhi]; [done | lia]. }
    eexists _, _.
    split; [by apply (download_loop_other_status _ _ _ _ _ _ _ r) | by split].
Qed.

(** A request that gets a terminal reply is the last thing the loop does,
    and the reply decides the outcome. *)
Lemma download_loop_terminal_is_last fuel retries w k res :
  (issued w ≤ k
   < issued (run_world (download_loop fuel url headers d max_retries retries w)))%nat →
  terminal_result d (replies w k) = Some res →
  download_loop fuel url headers d max_retries retries w
  = Done res (run_world (download_loop fuel url headers d max_retries retries w))
  ∧ issued (run_world (download_loop fuel url headers d max_retries retries w)) = S k
  ∧ last (log (run_world (download_loop fuel url headers d max_retries retries w)))
    = Some (EvGet url headers true).
Proof.
  revert retries w. induction fuel as [|fuel IH]; intros retries w.
  { simpl. lia. }
  destruct (decide (retries < max_retries)) as [Hlt|Hge].
  2:{ rewrite download_loop_exhausted by lia. simpl. lia. }
  destruct (terminal_result d (replies w (issued w))) as [res0|] eqn:Hhere.
  - rewrite (download_loop_terminal _ _ _ res0) by done. simpl.
    intros Hk Hres. assert (k = issued w) as -> by lia.
    rewrite Hhere in Hres. injection Hres as ->.
    split_and!; [done | done |]. by rewrite last_snoc.
  - destruct (download_loop_not_terminal fuel retries w) as (retries' & w1 & -> & Hi & Hr);
      [done | done |].
    intros Hk Hres. destruct (decide (k = issued w)) as [-> | Hne].
    { congruence. }
    apply IH; [lia | by rewrite Hr].
Qed.

(** A body the loop returns is the content of a reply with status 200, the
    reply to the last request issued. *)
Lemma download_loop_body_from_200 fuel retries w body w' :
  download_loop fuel url headers d max_retries retries w = Done (Ok (Some body)) w' →
  (issued w < issued w')%nat
  ∧ ∃ r, replies w (pred (issued w')) = Replied r
         ∧ status_code r = 200 ∧ content r = body.
Proof.
  revert retries w. induction fuel as [|fuel IH]; intros retries w; simpl; [done |].
  destruct (retries <? max_retries); [| done].
  destruct (attempt_shape url headers d retries w)
    as [r Hreply Hstatus | r Hreply Hstatus Hd | r Hreply H200 H204 Herr | e Hno]; simpl.
  - intros [= <- <-]. simpl. split; [lia |]. by exists r.
  - intros Hrun. destruct (IH _ _ Hrun) as (Hlt & r' & Hr' & Hrest).
    simpl in *. split; [lia |]. by exists r'.
  - intros Hrun. destruct (IH _ _ Hrun) as (Hlt & r' & Hr' & Hrest).
    simpl in *. split; [lia |]. by exists r'.
  - done.
Qed.

End DownloadEnds.

(** ** Rounds of the download loop *)

Section DownloadRounds.

Context {St : Type}.
Variables (url : string) (headers : list (string * string)) (d max_retries : Z).
Implicit Types (w : World St) (fuel k m n : nat) (retries : Z).

Lemma after_gets_issued m w :
  issued (after_gets m url headers w) = (issued w + m)%nat.
Proof.
  revert w. induction m as [|m IH]; intros w; simpl; [lia |].
  rewrite IH. simpl. lia.
Qed.

Lemma after_gets_replies m w :
  replies (after_gets m url headers w) = replies w.
Proof. revert w. induction m as [|m IH]; intros w; simpl; [done |]. by rewrite IH. Qed.

Lemma after_gets_log m w :
  log (after_gets m url headers w) = log w ++ replicate m (EvGet url headers true).
Proof.
  revert w. induction m as [|m IH]; intros w; simpl.
  - by rewrite app_nil_r.
  - rewrite IH. simpl. by rewrite <- app_assoc.
Qed.

(** [k] replies of 204 in a row take the loop [k] rounds further, each with
    a request and a sleep, and count [k] retries. *)
Lemma download_loop_after_204s k fuel retries w :
  0 ≤ d →
  retries + Z.of_nat k ≤ max_retries →
  (∀ j, (issued w ≤ j < issued w + k)%nat →
        ∃ r, replies w j = Replied r ∧ status_code r = 204) →
  download_loop (k + fuel) url headers d max_retries retries w
  = download_loop fuel url headers d max_retries (retries + Z.of_nat k)
      (after_retries k url headers d w).
Proof.
  intros Hd. revert retries w. induction k as [|k IH]; intros retries w Hk Hall.
  - simpl. by rewrite Z.add_0_r.
  - destruct (Hall (issued w)) as (r & Hreply & Hstatus); [lia |].
    change (S k + fuel)%nat with (S (k + fuel)).
    rewrite (download_loop_204 _ _ _ _ _ _ _ r) by (done || lia).
    rewrite IH; [simpl; f_equal; lia | lia |].
    intros j Hj. simpl in *. apply Hall. lia.
Qed.

(** [m] replies in a row with a status the loop does not handle take the
    loop [m] rounds further, each with a request only, and count nothing. *)
Lemma download_loop_after_unhandled m fuel retries w :
  retries < max_retries →
  (∀ j, (issued w ≤ j < issued w + m)%nat →
        ∃ r, replies w j = Replied r ∧ ¬ handled_status (status_code r)) →
  download_loop (m + fuel) url headers d max_retries retries w
  = download_loop fuel url headers d max_retries retries (after_gets m url headers w).
Proof.
  intros Hlt. revert w. induction m as [|m IH]; intros w Hall; [done |].
  destruct (Hall (issued w)) as (r & Hreply & Hstatus); [lia |].
  unfold handled_status in Hstatus.
  change (S m + fuel)%nat with (S (m + fuel)).
  rewrite (download_loop_other_status _ _ _ _ _ _ _ r) by (done || lia).
  rewrite IH; [done |].
  intros j Hj. simpl in *. apply Hall. lia.
Qed.

(** The log and the request counter agree, and every sleep has a request of
    its own before it. *)
Lemma download_loop_counts fuel retries w :
  ∃ new,
    log (run_world (download_loop fuel url headers d max_retries retries w))
    = log w ++ new
    ∧ requests new
      = (issued (run_world (download_loop fuel url headers d max_retries retries w))
         - issued w)%nat
    ∧ (sleeps new ≤ requests new)%nat.
Proof.
  revert retries w. induction fuel as [|fuel IH]; intros retries w; simpl.
  { exists []. rewrite app_nil_r. split_and!; [done | unfold requests; simpl; lia | done]. }
  destruct (retries <? max_retries).
  2:{ exists []. simpl. rewrite app_nil_r.
      split_and!; [done | unfold requests; simpl; lia | done]. }
  destruct (attempt_shape url headers d retries w)
    as [r Hreply Hstatus | r Hreply Hstatus Hd | r Hreply H200 H204 Herr | e Hno]; simpl.
  - exists [EvGet url headers true].
    split_and!; [done | unfold requests; simpl; lia | unfold requests, sleeps; simpl; lia].
  - destruct (IH (retries + 1) (after_sleep d (after_get url headers w)))
      as (new & Hlog & Hreq & Hsl).
    pose proof (download_loop_world url headers d max_retries fuel (retries + 1)
                  (after_sleep d (after_get url headers w))) as (_ & _ & Hle & _).
    exists (EvGet url headers true :: EvSleep d :: new). simpl in *.
    split_and!; [by rewrite Hlog, <- !app_assoc | |].
    + unfold requests in *. simpl. lia.
    + unfold requests, sleeps in *. simpl. lia.
  - destruct (IH retries (after_get url headers w)) as (new & Hlog & Hreq & Hsl).
    pose proof (download_loop_world url headers d max_retries fuel retries
                  (after_get url headers w)) as (_ & _ & Hle & _).
    exists (EvGet url headers true :: new). simpl in *.
    split_and!; [by rewrite Hlog, <- !app_assoc | |].
    + unfold requests in *. simpl. lia.
    + unfold requests, sleeps in *. simpl. lia.
  - exists [EvGet url headers true].
    split_and!; [done | unfold requests; simpl; lia | unfold requests, sleeps; simpl; lia].
Qed.

(** With a delay [time.sleep] rejects, no sleep ever happens. *)
Lemma download_loop_negative_delay_no_sleep fuel retries w :
  d < 0 →
  sleeps (log (run_world (download_loop fuel url headers d max_retries retries w)))
  = sleeps (log w).
Proof.
  intros Hneg. revert retries w. induction fuel as [|fuel IH]; intros retries w; simpl.
  { done. }
  destruct (retries <? max_retries); [| done].
  destruct (attempt_shape url headers d retries w)
    as [r Hreply Hstatus | r Hreply Hstatus Hd | r Hreply H200 H204 Herr | e Hno]; simpl.
  - unfold sleeps. rewrite List.filter_app, length_app. simpl. lia.
  - lia.
  - rewrite IH. simpl. unfold sleeps. rewrite List.filter_app, length_app. simpl. lia.
  - unfold sleeps. rewrite List.filter_app, length_app. simpl. lia.
Qed.

End DownloadRounds.

(** ** [download_invoice_pdf]: endings, polling and the log *)

Lemma terminal_result_error_status d r :
  400 ≤ status_code r < 600 →
  terminal_result d (Replied r) = Some (Raise (HTTPError r)).
Proof.
  intros Hstatus. unfold terminal_result.
  destruct (Z.eqb_spec (status_code r) 200); [lia |].
  destruct (Z.eqb_spec (status_code r) 204); [lia |].
  destruct (Z.leb_spec 400 (status_code r)); [| lia].
  destruct (Z.ltb_spec (status_code r) 600); [done | lia].
Qed.

Lemma terminal_result_negative_delay d r :
  d < 0 → status_code r = 204 →
  terminal_result d (Replied r)
  = Some (Raise (ValueError "sleep length must be non-negative")).
Proof.
  intros Hd Hstatus. unfold terminal_result. rewrite Hstatus. simpl.
  destruct (Z.ltb_spec d 0); [done | lia].
Qed.

Section DownloadFurther.

Context {St : Type} (fa : Fakturoid St).
Implicit Types (w : World St) (fuel k m : nat) (invoice_id d max_retries : Z).

(** A request of a run that gets a terminal reply ends the run with the
    outcome that reply stands for, and is the last entry of the log. *)
Lemma download_terminal_is_last fuel invoice_id d max_retries w k res :
  (issued w ≤ k
   < issued (run_world (download_invoice_pdf fuel fa invoice_id d max_retries w)))%nat →
  terminal_result d (replies w k) = Some res →
  result_of (download_invoice_pdf fuel fa invoice_id d max_retries w) = Some res
  ∧ issued (run_world (download_invoice_pdf fuel fa invoice_id d max_retries w)) = S k
  ∧ ∃ url headers,
      last (log (run_world (download_invoice_pdf fuel fa invoice_id d max_retries w)))
      = Some (EvGet url headers true).
Proof.
  destruct (fa_ensure_token fa (session w)) as [[[]|e] s1] eqn:Htoken.
  - rewrite (download_invoice_pdf_ready _ _ _ _ _ _ s1) by done.
    intros Hk Hres.
    destruct (download_loop_terminal_is_last
                (pdf_url (fa_slug fa (session w)) invoice_id)
                (pdf_headers (fa_user_agent fa s1) (fa_token fa s1))
                d max_retries fuel 0 (after_call EvEnsureToken s1 w) k res)
      as (Hrun & Hissued & Hlast); [done | done |].
    split_and!; [by rewrite Hrun | done | eauto].
  - rewrite (download_invoice_pdf_no_token _ _ _ _ _ _ e s1) by done.
    simpl. lia.
Qed.

(** X1: when every response has a status the loop handles (200, 204, 4xx
    or 5xx), [download_invoice_pdf] terminates, whatever else happens: it is
    done within [max_retries + 1] tests of the loop condition and has
    issued at most [max_retries] requests. *)
Theorem download_terminates_on_handled_statuses fuel invoice_id d max_retries w :
  (∀ k r, (issued w ≤ k)%nat → replies w k = Replied r →
          handled_status (status_code r)) →
  (Z.to_nat max_retries < fuel)%nat →
  ∃ res w',
    download_invoice_pdf fuel fa invoice_id d max_retries w = Done res w'
    ∧ (issued w' ≤ issued w + Z.to_nat max_retries)%nat.
Proof.
  intros Hall Hfuel.
  destruct (fa_ensure_token fa (session w)) as [[[]|e] s1] eqn:Htoken.
  - rewrite (download_invoice_pdf_ready _ _ _ _ _ _ s1) by done.
    destruct (download_loop_terminates
                (pdf_url (fa_slug fa (session w)) invoice_id)
                (pdf_headers (fa_user_agent fa s1) (fa_token fa s1))
                d max_retries fuel 0 (after_call EvEnsureToken s1 w))
      as (res & w' & Hrun & Hissued); [done | by rewrite Z.sub_0_r |].
    exists res, w'. split; [done |]. rewrite Z.sub_0_r in Hissued. done.
  - rewrite (download_invoice_pdf_no_token _ _ _ _ _ _ e s1) by done.
    eexists _, _. split; [done |]. simpl. lia.
Qed.

(** X2: whenever a request is answered with a 4xx or 5xx status, the
    function raises the [HTTPError] that carries this very response, and
    that request is the last thing it does: no retry, no sleep. *)
Theorem download_raises_HTTPError_on_error_status fuel invoice_id d max_retries w k r :
  (issued w ≤ k
   < issued (run_world (download_invoice_pdf fuel fa invoice_id d max_retries w)))%nat →
  replies w k = Replied r →
  400 ≤ status_code r < 600 →
  result_of (download_invoice_pdf fuel fa invoice_id d max_retries w)
  = Some (Raise (HTTPError r))
  ∧ issued (run_world (download_invoice_pdf fuel fa invoice_id d max_retries w)) = S k
  ∧ ∃ url headers,
      last (log (run_world (download_invoice_pdf fuel fa invoice_id d max_retries w)))
      = Some (EvGet url headers true).
Proof.
  intros Hk Hreply Hstatus. apply download_terminal_is_last; [done |].
  rewrite Hreply. by apply terminal_result_error_status.
Qed.

(** X3: whenever [requests.get] itself raises, be it an [HTTPError] or any
    other exception, the function raises that same exception and the failed
    request is the last thing it does. *)
Theorem download_propagates_request_failure fuel invoice_id d max_retries w k e :
  (issued w ≤ k
   < issued (run_world (download_invoice_pdf fuel fa invoice_id d max_retries w)))%nat →
  replies w k = Failed e →
  result_of (download_invoice_pdf fuel fa invoice_id d max_retries w) = Some (Raise e)
  ∧ issued (run_world (download_invoice_pdf fuel fa invoice_id d max_retries w)) = S k.
Proof.
  intros Hk Hreply.
  destruct (download_terminal_is_last fuel invoice_id d max_retries w k (Raise e))
    as (Hres & Hissued & _); [done | by rewrite Hreply | done].
Qed.

(** X4: with a negative [retry_delay], a 204 does not lead to a retry:
    [time.sleep] rejects the delay, the function raises its [ValueError]
    and the request that got the 204 is the last one. *)
Theorem download_negative_delay_raises_on_204 fuel invoice_id d max_retries w k r :
  d < 0 →
  (issued w ≤ k
   < issued (run_world (download_invoice_pdf fuel fa invoice_id d max_retries w)))%nat →
  replies w k = Replied r →
  status_code r = 204 →
  result_of (download_invoice_pdf fuel fa invoice_id d max_retries w)
  = Some (Raise (ValueError "sleep length must be non-negative"))
  ∧ issued (run_world (download_invoice_pdf fuel fa invoice_id d max_retries w)) = S k
  ∧ sleeps (log (run_world (download_invoice_pdf fuel fa invoice_id d max_retries w)))
    = sleeps (log w).
Proof.
  intros Hd Hk Hreply Hstatus.
  destruct (download_terminal_is_last fuel invoice_id d max_retries w k
              (Raise (ValueError "sleep length must be non-negative")))
    as (Hres & Hissued & _);
    [done | rewrite Hreply; by apply terminal_result_negative_delay |].
  split_and!; [done | done |].
  destruct (fa_ensure_token fa (session w)) as [[[]|e] s1] eqn:Htoken.
  - rewrite (download_invoice_pdf_ready _ _ _ _ _ _ s1) by done.
    rewrite download_loop_negative_delay_no_sleep by done.
    simpl. unfold sleeps. rewrite List.filter_app, length_app. simpl. lia.
  - rewrite (download_invoice_pdf_no_token _ _ _ _ _ _ e s1) by done.
    simpl. unfold sleeps. rewrite List.filter_app, length_app. simpl. lia.
Qed.

End DownloadFurther.

Section DownloadPolling.

Context {St : Type} (fa : Fakturoid St).
Implicit Types (w : World St) (fuel k m : nat) (invoice_id d max_retries : Z).

(** X5: with [max_retries] zero or negative the function asks the server
    nothing: after the token check it returns [None] at once. *)
Theorem download_makes_no_request_without_retries fuel invoice_id d max_retries w s1 :
  max_retries ≤ 0 →
  fa_ensure_token fa (session w) = (Ok tt, s1) →
  download_invoice_pdf (S fuel) fa invoice_id d max_retries w
  = Done (Ok None) (after_call EvEnsureToken s1 w).
Proof.
  intros Hmax Htoken. rewrite (download_invoice_pdf_ready _ _ _ _ _ _ s1) by done.
  by apply download_loop_exhausted.
Qed.

(** X6: when the token check fails, the function raises what the check
    raised and sends no request; this holds before the loop is entered, so
    whatever the bound on the rounds. *)
Theorem download_sends_nothing_when_token_check_fails
    fuel invoice_id d max_retries w e s1 :
  fa_ensure_token fa (session w) = (Raise e, s1) →
  result_of (download_invoice_pdf fuel fa invoice_id d max_retries w) = Some (Raise e)
  ∧ issued (run_world (download_invoice_pdf fuel fa invoice_id d max_retries w))
    = issued w
  ∧ log (run_world (download_invoice_pdf fuel fa invoice_id d max_retries w))
    = log w ++ [EvEnsureToken].
Proof.
  intros Htoken. by rewrite (download_invoice_pdf_no_token _ _ _ _ _ _ e s1).
Qed.

(** X7: polling until the PDF is ready.  When the server answers 204 to the
    first [k] requests, [k] below [max_retries], and 200 to the next one,
    the function returns the body of that response after [k + 1] requests,
    having slept [retry_delay] after each of the first [k]. *)
Theorem download_returns_body_after_polling fuel invoice_id d max_retries w s1 k r :
  0 ≤ d →
  fa_ensure_token fa (session w) = (Ok tt, s1) →
  Z.of_nat k < max_retries →
  (∀ j, (issued w ≤ j < issued w + k)%nat →
        ∃ r', replies w j = Replied r' ∧ status_code r' = 204) →
  replies w (issued w + k) = Replied r →
  status_code r = 200 →
  (k < fuel)%nat →
  ∃ w',
    download_invoice_pdf fuel fa invoice_id d max_retries w
    = Done (Ok (Some (content r))) w'
    ∧ issued w' = (issued w + k + 1)%nat
    ∧ log w'
      = log w ++ EvEnsureToken
          :: mjoin (replicate k
               [EvGet (pdf_url (fa_slug fa (session w)) invoice_id)
                  (pdf_headers (fa_user_agent fa s1) (fa_token fa s1)) true;
                EvSleep d])
          ++ [EvGet (pdf_url (fa_slug fa (session w)) invoice_id)
                (pdf_headers (fa_user_agent fa s1) (fa_token fa s1)) true].
Proof.
  intros Hd Htoken Hk H204 Hreply H200 Hfuel.
  rewrite (download_invoice_pdf_ready _ _ _ _ _ _ s1) by done.
  destruct fuel as [|fuel]; [lia |].
  replace (S fuel) with (k + S (fuel - k))%nat by lia.
  rewrite download_loop_after_204s; [| done | lia | done].
  rewrite (download_loop_200 _ _ _ _ _ _ _ r); [| lia | |done].
  2:{ by rewrite after_retries_replies, after_retries_issued. }
  eexists. split; [done |]. simpl.
  rewrite after_retries_issued, after_retries_log. simpl.
  split; [lia |]. by rewrite <- !app_assoc.
Qed.

(** X8: a response whose status the loop does not handle (202 or 304, say)
    costs a request but no retry and no sleep.  After [m] such responses,
    however many, a 200 still gets its body returned: the number of
    requests is not held back by [max_retries]. *)
Theorem download_unhandled_statuses_cost_no_retry fuel invoice_id d max_retries w s1 m r :
  fa_ensure_token fa (session w) = (Ok tt, s1) →
  0 < max_retries →
  (∀ j, (issued w ≤ j < issued w + m)%nat →
        ∃ r', replies w j = Replied r' ∧ ¬ handled_status (status_code r')) →
  replies w (issued w + m) = Replied r →
  status_code r = 200 →
  (m < fuel)%nat →
  ∃ w',
    download_invoice_pdf fuel fa invoice_id d max_retries w
    = Done (Ok (Some (content r))) w'
    ∧ issued w' = (issued w + m + 1)%nat
    ∧ sleeps (log w') = sleeps (log w).
Proof.
  intros Htoken Hmax Hother Hreply H200 Hfuel.
  rewrite (download_invoice_pdf_ready _ _ _ _ _ _ s1) by done.
  destruct fuel as [|fuel]; [lia |].
  replace (S fuel) with (m + S (fuel - m))%nat by lia.
  rewrite download_loop_after_unhandled; [| done | done].
  rewrite (download_loop_200 _ _ _ _ _ _ _ r); [| lia | |done].
  2:{ by rewrite after_gets_replies, after_gets_issued. }
  eexists. split; [done |]. simpl.
  rewrite after_gets_issued, after_gets_log. simpl.
  split; [lia |]. unfold sleeps. rewrite !List.filter_app, !length_app. simpl.
  enough (List.filter is_sleep
            (replicate m (EvGet (pdf_url (fa_slug fa (session w)) invoice_id)
                            (pdf_headers (fa_user_agent fa s1) (fa_token fa s1)) true))
          = []) as -> by (simpl; lia).
  clear. induction m as [|m IH]; [done | by simpl].
Qed.

(** X9: the token is checked once, before the first request, and every
    request of a run is the same one: the same URL, [stream=True] and the
    three headers built from the client as it is after that check.  The
    function makes no other call than these requests and its sleeps. *)
Theorem download_checks_token_once_and_repeats_one_request
    fuel invoice_id d max_retries w s1 :
  fa_ensure_token fa (session w) = (Ok tt, s1) →
  session (run_world (download_invoice_pdf fuel fa invoice_id d max_retries w)) = s1
  ∧ ∃ new,
      log (run_world (download_invoice_pdf fuel fa invoice_id d max_retries w))
      = log w ++ EvEnsureToken :: new
      ∧ Forall (λ ev,
          ev = EvGet (pdf_url (fa_slug fa (session w)) invoice_id)
                 [("User-Agent", fa_user_agent fa s1);
                  ("Authorization", "Bearer " +:+ fa_token fa s1);
                  ("Accept", "application/pdf")] true
          ∨ ev = EvSleep d) new.
Proof.
  intros Htoken. rewrite (download_invoice_pdf_ready _ _ _ _ _ _ s1) by done.
  destruct (download_loop_world
              (pdf_url (fa_slug fa (session w)) invoice_id)
              (pdf_headers (fa_user_agent fa s1) (fa_token fa s1))
              d max_retries fuel 0 (after_call EvEnsureToken s1 w))
    as (Hsession & _ & _ & new & Hlog & Hnew).
  split; [done |]. exists new. split; [| done].
  rewrite Hlog. simpl. by rewrite <- app_assoc.
Qed.

(** X10: every request is in the log and every sleep has a request of its
    own before it: in what a run adds to the log there are as many requests
    as the request counter went up, and at most as many sleeps. *)
Theorem download_log_counts_requests_and_sleeps fuel invoice_id d max_retries w :
  ∃ new,
    log (run_world (download_invoice_pdf fuel fa invoice_id d max_retries w))
    = log w ++ new
    ∧ requests new
      = (issued (run_world (download_invoice_pdf fuel fa invoice_id d max_retries w))
         - issued w)%nat
    ∧ (sleeps new ≤ requests new)%nat.
Proof.
  destruct (fa_ensure_token fa (session w)) as [[[]|e] s1] eqn:Htoken.
  - rewrite (download_invoice_pdf_ready _ _ _ _ _ _ s1) by done.
    destruct (download_loop_counts
                (pdf_url (fa_slug fa (session w)) invoice_id)
                (pdf_headers (fa_user_agent fa s1) (fa_token fa s1))
                d max_retries fuel 0 (after_call EvEnsureToken s1 w))
      as (new & Hlog & Hreq & Hsl).
    exists (EvEnsureToken :: new). split_and!.
    + rewrite Hlog. simpl. by rewrite <- app_assoc.
    + done.
    + done.
  - rewrite (download_invoice_pdf_no_token _ _ _ _ _ _ e s1) by done.
    exists [EvEnsureToken]. split_and!; [done | unfold requests; simpl; lia | done].
Qed.

(** X11: the function never returns bytes it did not get with a 200: when
    it returns a body, the last request it issued was answered with status
    200 and the body is the content of that response. *)
Theorem download_returns_only_bodies_of_200 fuel invoice_id d max_retries w body w' :
  download_invoice_pdf fuel fa invoice_id d max_retries w = Done (Ok (Some body)) w' →
  (issued w < issued w')%nat
  ∧ ∃ r, replies w (pred (issued w')) = Replied r
         ∧ status_code r = 200 ∧ content r = body.
Proof.
  destruct (fa_ensure_token fa (session w)) as [[[]|e] s1] eqn:Htoken.
  - rewrite (download_invoice_pdf_ready _ _ _ _ _ _ s1) by done.
    intros Hrun. by apply download_loop_body_from_200 in Hrun.
  - by rewrite (download_invoice_pdf_no_token _ _ _ _ _ _ e s1).
Qed.

End DownloadPolling.

Lemma download_terminates_on_handled_statuses_witness :
  ∃ res w',
    download_invoice_pdf 6 Demo.client 7 2 5 (Demo.world (Demo.script [204; 503]))
    = Done res w'
    ∧ (issued w' ≤ 0 + 5)%nat.
Proof.
  apply (download_terminates_on_handled_statuses Demo.client 6 7 2 5
           (Demo.world (Demo.script [204; 503]))); [| simpl; lia].
  intros k r _. unfold handled_status. simpl.
  destruct k as [|[|k]]; intros [= <-]; simpl; lia.
Defined.

Lemma download_raises_HTTPError_on_error_status_witness :
  result_of (download_invoice_pdf 6 Demo.client 7 2 5
               (Demo.world (Demo.script [204; 503])))
  = Some (Raise (HTTPError (mkResponse 503 []))).
Proof.
  apply (download_raises_HTTPError_on_error_status Demo.client 6 7 2 5
           (Demo.world (Demo.script [204; 503])) 1 (mkResponse 503 []));
    [vm_compute; lia | reflexivity | simpl; lia].
Defined.

Lemma download_propagates_request_failure_witness :
  result_of (download_invoice_pdf 6 Demo.client 7 2 5
               (Demo.world (λ _, Failed Offline.unreachable)))
  = Some (Raise Offline.unreachable).
Proof.
  apply (download_propagates_request_failure Demo.client 6 7 2 5
           (Demo.world (λ _, Failed Offline.unreachable)) 0 Offline.unreachable);
    [vm_compute; lia | reflexivity].
Defined.

Lemma download_negative_delay_raises_on_204_witness :
  result_of (download_invoice_pdf 6 Demo.client 7 (-1) 5 (Demo.world (Demo.always 204)))
  = Some (Raise (ValueError "sleep length must be non-negative")).
Proof.
  apply (download_negative_delay_raises_on_204 Demo.client 6 7 (-1) 5
           (Demo.world (Demo.always 204)) 0 (mkResponse 204 []));
    [lia | vm_compute; lia | reflexivity | reflexivity].
Defined.

Lemma download_makes_no_request_without_retries_witness :
  issued (run_world (download_invoice_pdf 1 Demo.client 7 2 0
                       (Demo.world (Demo.always 200)))) = 0%nat.
Proof.
  rewrite (download_makes_no_request_without_retries Demo.client 0 7 2 0
             (Demo.world (Demo.always 200))
             (Demo.mkStore (Demo.invoices Demo.store) (Demo.subjects Demo.store) "t0k3n"));
    [reflexivity | lia | reflexivity].
Defined.

Lemma download_sends_nothing_when_token_check_fails_witness :
  result_of (download_invoice_pdf 6 Offline.client 7 2 5 (Demo.world (Demo.always 200)))
  = Some (Raise Offline.unreachable).
Proof.
  apply (download_sends_nothing_when_token_check_fails Offline.client 6 7 2 5
           (Demo.world (Demo.always 200)) Offline.unreachable Demo.store eq_refl).
Defined.

Lemma download_returns_body_after_polling_witness :
  ∃ w',
    download_invoice_pdf 6 Demo.client 7 2 5 (Demo.world (Demo.script [204; 204; 204]))
    = Done (Ok (Some Demo.pdf)) w'
    ∧ issued w' = 4%nat.
Proof.
  destruct (download_returns_body_after_polling Demo.client 6 7 2 5
              (Demo.world (Demo.script [204; 204; 204]))
              (Demo.mkStore (Demo.invoices Demo.store) (Demo.subjects Demo.store) "t0k3n")
              3 (mkResponse 200 Demo.pdf))
    as (w' & Hrun & Hissued & _); [lia | reflexivity | lia | | reflexivity | reflexivity | lia |].
  - intros j Hj. simpl in Hj. exists (mkResponse 204 []).
    destruct j as [|[|[|j]]]; [done | done | done | lia].
  - exists w'. split; [exact Hrun | exact Hissued].
Defined.

Lemma download_unhandled_statuses_cost_no_retry_witness :
  ∃ w',
    download_invoice_pdf 9 Demo.client 7 2 5
      (Demo.world (Demo.script [202; 202; 202; 202; 202; 202; 202]))
    = Done (Ok (Some Demo.pdf)) w'
    ∧ issued w' = 8%nat.
Proof.
  destruct (download_unhandled_statuses_cost_no_retry Demo.client 9 7 2 5
              (Demo.world (Demo.script [202; 202; 202; 202; 202; 202; 202]))
              (Demo.mkStore (Demo.invoices Demo.store) (Demo.subjects Demo.store) "t0k3n")
              7 (mkResponse 200 Demo.pdf))
    as (w' & Hrun & Hissued & _); [reflexivity | lia | | reflexivity | reflexivity | lia |].
  - intros j Hj. simpl in Hj. exists (mkResponse 202 []).
    split; [| unfold handled_status; simpl; lia].
    do 7 (destruct j as [|j]; [done |]). lia.
  - exists w'. split; [exact Hrun | exact Hissued].
Defined.

Lemma download_checks_token_once_and_repeats_one_request_witness :
  Demo.access_token
    (session (run_world (download_invoice_pdf 6 Demo.client 7 2 5
                           (Demo.world (Demo.script [204]))))) = "t0k3n".
Proof.
  destruct (download_checks_token_once_and_repeats_one_request Demo.client 6 7 2 5
              (Demo.world (Demo.script [204]))
              (Demo.mkStore (Demo.invoices Demo.store) (Demo.subjects Demo.store) "t0k3n")
              eq_refl) as [Hsession _].
  by rewrite Hsession.
Defined.

Lemma download_returns_only_bodies_of_200_witness :
  ∃ r, Demo.script [204] 1%nat = Replied r ∧ status_code r = 200 ∧ content r = Demo.pdf.
Proof.
  destruct (download_returns_only_bodies_of_200 Demo.client 6 7 2 5
              (Demo.world (Demo.script [204])) Demo.pdf
              (run_world (download_invoice_pdf 6 Demo.client 7 2 5
                            (Demo.world (Demo.script [204])))))
    as (_ & r & Hr & Hrest); [by vm_compute |].
  exists r. split; [exact Hr | exact Hrest].
Defined.

(** ** The URL of the PDF *)

Lemma length_append (s t : string) :
  String.length (s +:+ t) = (String.length s + String.length t)%nat.
Proof. induction s as [|c s IH]; simpl; [done | by rewrite IH]. Qed.

Lemma append_inj_suffix (s1 s2 t : string) : s1 +:+ t = s2 +:+ t → s1 = s2.
Proof.
  revert s2. induction s1 as [|c s1 IH]; intros s2 Heq.
  - destruct s2 as [|c2 s2]; [done |]. exfalso.
    apply (f_equal String.length) in Heq. simpl in Heq.
    rewrite !length_append in Heq. simpl in Heq. lia.
  - destruct s2 as [|c2 s2].
    + exfalso. apply (f_equal String.length) in Heq. simpl in Heq.
      rewrite !length_append in Heq. simpl in Heq. lia.
    + simpl in Heq. injection Heq as -> Heq. f_equal. by apply IH.
Qed.

(** X12: the URLs of one account tell its invoices apart, and the URLs of
    one invoice number tell the accounts apart: the URL determines the
    invoice id under a given slug and the slug under a given id. *)
Theorem get_fakturoid_invoice_pdf_url_injective :
  (∀ slug id1 id2,
      get_fakturoid_invoice_pdf_url id1 slug = get_fakturoid_invoice_pdf_url id2 slug →
      id1 = id2)
  ∧ (∀ slug1 slug2 id,
      get_fakturoid_invoice_pdf_url id slug1 = get_fakturoid_invoice_pdf_url id slug2 →
      slug1 = slug2).
Proof.
  split.
  - intros slug id1 id2. rewrite !get_fakturoid_invoice_pdf_url_eq.
    intros [= Heq]. unfold pdf_url in Heq.
    do 3 apply String.app_inj in Heq.
    apply append_inj_suffix in Heq. by apply (inj pretty) in Heq.
  - intros slug1 slug2 id. rewrite !get_fakturoid_invoice_pdf_url_eq.
    intros [= Heq]. unfold pdf_url in Heq.
    apply String.app_inj in Heq. by apply append_inj_suffix in Heq.
Qed.

(** ** [create_fakturoid_invoice_lines]: failure and composition *)

(** What the loop has gathered so far only comes in front of the result. *)
Lemma lines_loop_accumulator (data : list Dict) (lines : list InvoiceLine.t) :
  lines_loop data lines
  = match lines_loop data [] with
    | Ok new => Ok (lines ++ new)
    | Raise e => Raise e
    end.
Proof.
  revert lines. induction data as [|line data IH]; intros lines; simpl.
  - by rewrite app_nil_r.
  - destruct (invoice_line_of line) as [l|e]; [| done].
    rewrite (IH (lines ++ [l])), (IH [l]).
    destruct (lines_loop data []); [| done]. by rewrite <- app_assoc.
Qed.

Lemma create_fakturoid_invoice_lines_cons (line : Dict) (data : list Dict) :
  create_fakturoid_invoice_lines (line :: data)
  = match invoice_line_of line with
    | Ok l =>
        match create_fakturoid_invoice_lines data with
        | Ok rest => Ok (l :: rest)
        | Raise e => Raise e
        end
    | Raise e => Raise e
    end.
Proof.
  unfold create_fakturoid_invoice_lines. simpl.
  destruct (invoice_line_of line) as [l|e]; [| done].
  by rewrite lines_loop_accumulator.
Qed.

Lemma invoice_line_of_ok_inv (line : Dict) l :
  invoice_line_of line = Ok l →
  is_Some (line !! "name") ∧ is_Some (line !! "unit_price").
Proof.
  unfold invoice_line_of, dict_item.
  destruct (line !! "name"); [| done]. destruct (line !! "unit_price"); [| done].
  intros _. split; by eexists.
Qed.

(** X13: the lines of a concatenated input are the lines of its parts, one
    after the other; and when the first part fails, the whole fails with
    the same error, the second part never being looked at. *)
Theorem create_fakturoid_invoice_lines_app (data1 data2 : list Dict) :
  create_fakturoid_invoice_lines (data1 ++ data2)
  = match create_fakturoid_invoice_lines data1 with
    | Ok lines1 =>
        match create_fakturoid_invoice_lines data2 with
        | Ok lines2 => Ok (lines1 ++ lines2)
        | Raise e => Raise e
        end
    | Raise e => Raise e
    end.
Proof.
  induction data1 as [|line data1 IH].
  - simpl. change (create_fakturoid_invoice_lines []) with (Ok (@nil InvoiceLine.t)).
    by destruct (create_fakturoid_invoice_lines data2).
  - rewrite <- app_comm_cons, !create_fakturoid_invoice_lines_cons, IH.
    destruct (invoice_line_of line) as [l|e]; [| done].
    destruct (create_fakturoid_invoice_lines data1) as [lines1|e]; [| done].
    by destruct (create_fakturoid_invoice_lines data2).
Qed.

(** X14: the function returns a list exactly when every dictionary of the
    input has both ['name'] and ['unit_price']; otherwise it raises. *)
Theorem create_fakturoid_invoice_lines_ok_iff (data : list Dict) :
  (∃ lines, create_fakturoid_invoice_lines data = Ok lines)
  ↔ Forall (λ line : Dict, is_Some (line !! "name") ∧ is_Some (line !! "unit_price")) data.
Proof.
  split.
  - induction data as [|line data IH]; intros [lines Hrun]; [constructor |].
    rewrite create_fakturoid_invoice_lines_cons in Hrun.
    destruct (invoice_line_of line) as [l|e] eqn:Hline; [| done].
    destruct (create_fakturoid_invoice_lines data) as [rest|e] eqn:Hrest; [| done].
    constructor; [by eapply invoice_line_of_ok_inv | apply IH; by exists rest].
  - intros Hdata. destruct (lines_loop_ok data [] Hdata) as (lines & Hrun & _).
    by exists lines.
Qed.

(** X15: the error names the first missing key of the first dictionary
    that lacks one: after any number of complete dictionaries, a dictionary
    without ['name'] gives [KeyError('name')], whether or not it has a
    price, and one with a name but no ['unit_price'] gives
    [KeyError('unit_price')]; what follows it in the input plays no part. *)
Theorem create_fakturoid_invoice_lines_first_missing_key
    (good : list Dict) (bad : Dict) (rest : list Dict) :
  Forall (λ line : Dict, is_Some (line !! "name") ∧ is_Some (line !! "unit_price")) good →
  (bad !! "name" = None →
     create_fakturoid_invoice_lines (good ++ bad :: rest) = Raise (KeyError "name"))
  ∧ (is_Some (bad !! "name") → bad !! "unit_price" = None →
     create_fakturoid_invoice_lines (good ++ bad :: rest) = Raise (KeyError "unit_price")).
Proof.
  intros Hgood.
  destruct (lines_loop_ok good [] Hgood) as (lines & Hrun & _).
  split.
  - intros Hname. rewrite create_fakturoid_invoice_lines_app.
    unfold create_fakturoid_invoice_lines at 1. rewrite Hrun.
    by rewrite create_fakturoid_invoice_lines_cons, invoice_line_of_missing_name.
  - intros Hname Hprice. rewrite create_fakturoid_invoice_lines_app.
    unfold create_fakturoid_invoice_lines at 1. rewrite Hrun.
    by rewrite create_fakturoid_invoice_lines_cons, invoice_line_of_missing_unit_price.
Qed.

Lemma create_fakturoid_invoice_lines_first_missing_key_witness :
  create_fakturoid_invoice_lines
    [ {[ "name" := PyStr "Hosting"; "unit_price" := PyInt 300 ]};
      {[ "name" := PyStr "Domain" ]};
      ∅ ]
  = Raise (KeyError "unit_price").
Proof.
  apply (create_fakturoid_invoice_lines_first_missing_key
           [ {[ "name" := PyStr "Hosting"; "unit_price" := PyInt 300 ]} ]
           {[ "name" := PyStr "Domain" ]} [ ∅ ]).
  - repeat constructor; by eexists.
  - by eexists.
  - done.
Defined.

(** ** [create_fakturoid_subject]: without email, name or client *)

Section CreateSubjectFurther.

Context {St : Type} (fa : Fakturoid St).
Implicit Types (w : World St) (data : Dict).

Lemma create_fakturoid_subject_no_email (client : option (Fakturoid St)) data w :
  truthy (dict_get data "email") = false →
  create_fakturoid_subject client data w = build_and_save_subject client data w.
Proof. intros Hfalsy. unfold create_fakturoid_subject. by rewrite Hfalsy. Qed.

Lemma create_fakturoid_subject_searched data w email subjects s1 found :
  data !! "email" = Some email →
  truthy email = true →
  fa_subjects_search fa email (session w) = (Ok subjects, s1) →
  first_with_email data subjects = Ok found →
  create_fakturoid_subject (Some fa) data w
  = match found with
    | Some subject => (Ok subject, after_call (EvSearch email) s1 w)
    | None => build_and_save_subject (Some fa) data (after_call (EvSearch email) s1 w)
    end.
Proof.
  intros Hemail Htruthy Hsearch Hfound. unfold create_fakturoid_subject, dict_get.
  rewrite Hemail. simpl. rewrite Htruthy.
  unfold bind, lift, dict_item, call at 1. rewrite Hemail, Hsearch.
  fold (after_call (EvSearch email) s1 w). rewrite Hfound.
  by destruct found.
Qed.

Lemma build_and_save_subject_missing_name (client : option (Fakturoid St)) data w :
  data !! "name" = None →
  build_and_save_subject client data w = (Raise (KeyError "name"), w).
Proof.
  intros Hname.
  unfold build_and_save_subject, new_subject_of, bind, lift, dict_item.
  by rewrite Hname.
Qed.

(** X16: without an email in [data] (the key missing, or its value [None]
    or empty) the function does not search: its one and only call is
    [fa.save] on the subject it has built, and it returns what that call
    leaves of the subject. *)
Theorem create_fakturoid_subject_without_email_only_saves data w name :
  truthy (dict_get data "email") = false →
  data !! "name" = Some name →
  ∃ new_subject,
    Subject.name new_subject = name
    ∧ Subject.email new_subject = dict_get data "email"
    ∧ create_fakturoid_subject (Some fa) data w
      = call (EvSaveSubject new_subject) (fa_save_subject fa new_subject) w.
Proof.
  intros Hfalsy Hname. rewrite create_fakturoid_subject_no_email by done.
  destruct (build_and_save_subject_eq fa data name w Hname)
    as (new_subject & _ & Hn & He & Hsave).
  by exists new_subject.
Qed.

(** X17: ['name'] is required only when a subject has to be built.  Without
    it the function raises [KeyError('name')] and saves nothing, at once
    when there is no email to search for, and after the search when the
    search brings no subject with that email. *)
Theorem create_fakturoid_subject_missing_name data w :
  data !! "name" = None →
  (truthy (dict_get data "email") = false →
     ∀ client : option (Fakturoid St),
       create_fakturoid_subject client data w = (Raise (KeyError "name"), w))
  ∧ (∀ email subjects s1,
       data !! "email" = Some email → truthy email = true →
       fa_subjects_search fa email (session w) = (Ok subjects, s1) →
       Forall (λ s, py_eq (Subject.email s) email = false) subjects →
       create_fakturoid_subject (Some fa) data w
       = (Raise (KeyError "name"), after_call (EvSearch email) s1 w)).
Proof.
  intros Hname. split.
  - intros Hfalsy client. rewrite create_fakturoid_subject_no_email by done.
    by apply build_and_save_subject_missing_name.
  - intros email subjects s1 Hemail Htruthy Hsearch Hnone.
    rewrite (create_fakturoid_subject_searched data w email subjects s1 None);
      [| done | done | done | by apply (first_with_email_none data email)].
    by apply build_and_save_subject_missing_name.
Qed.

(** X18: a failing search is not taken for "no such subject": when
    [fa.subjects.search] raises, the function raises the same exception and
    builds and saves nothing. *)
Theorem create_fakturoid_subject_search_failure data w email e s1 :
  data !! "email" = Some email →
  truthy email = true →
  fa_subjects_search fa email (session w) = (Raise e, s1) →
  create_fakturoid_subject (Some fa) data w
  = (Raise e, after_call (EvSearch email) s1 w).
Proof.
  intros Hemail Htruthy Hsearch. unfold create_fakturoid_subject, dict_get.
  rewrite Hemail. simpl. rewrite Htruthy.
  unfold bind, lift, dict_item, call. by rewrite Hemail, Hsearch.
Qed.

End CreateSubjectFurther.

(** X19: with [fa] being [None] the function can only build: with an email
    to search for it fails with [AttributeError] on [fa.subjects], without
    one it returns the new subject and has called nothing. *)
Theorem create_fakturoid_subject_without_client {St} (data : Dict) (w : World St) :
  (truthy (dict_get data "email") = true →
     create_fakturoid_subject None data w
     = (Raise (AttributeError "'NoneType' object has no attribute 'subjects'"), w))
  ∧ (truthy (dict_get data "email") = false →
     ∀ name, data !! "name" = Some name →
       ∃ new_subject,
         create_fakturoid_subject None data w = (Ok new_subject, w)
         ∧ Subject.name new_subject = name).
Proof.
  split.
  - intros Htruthy. unfold create_fakturoid_subject. rewrite Htruthy.
    by unfold bind, raise.
  - intros Hfalsy name Hname. rewrite create_fakturoid_subject_no_email by done.
    unfold build_and_save_subject, new_subject_of, bind, lift, dict_item, ret.
    rewrite Hname. by eexists.
Qed.

Lemma create_fakturoid_subject_without_email_only_saves_witness :
  ∃ new_subject,
    Subject.name new_subject = PyStr "Carol"
    ∧ (create_fakturoid_subject (Some Demo.client)
         {[ "name" := PyStr "Carol"; "email" := PyStr "" ]}
         (Demo.world (Demo.always 200))).1 = Ok new_subject.
Proof.
  destruct (create_fakturoid_subject_without_email_only_saves Demo.client
              {[ "name" := PyStr "Carol"; "email" := PyStr "" ]}
              (Demo.world (Demo.always 200)) (PyStr "Carol"))
    as (new_subject & Hname & _ & Hrun); [by vm_compute | by vm_compute |].
  exists new_subject. split; [exact Hname |]. by rewrite Hrun.
Defined.

Lemma create_fakturoid_subject_missing_name_witness :
  create_fakturoid_subject (Some Demo.client) {[ "email" := PyStr "carol@example.com" ]}
    (Demo.world (Demo.always 200))
  = (Raise (KeyError "name"),
     after_call (EvSearch (PyStr "carol@example.com")) Demo.store
       (Demo.world (Demo.always 200))).
Proof.
  destruct (create_fakturoid_subject_missing_name Demo.client
              {[ "email" := PyStr "carol@example.com" ]}
              (Demo.world (Demo.always 200))) as [_ Hsearched]; [by vm_compute |].
  apply (Hsearched (PyStr "carol@example.com") (Demo.subjects Demo.store) Demo.store);
    [by vm_compute | done | done |].
  repeat constructor.
Defined.

Lemma create_fakturoid_subject_search_failure_witness :
  (create_fakturoid_subject (Some Offline.client)
     {[ "email" := PyStr "carol@example.com"; "name" := PyStr "Carol" ]}
     (Demo.world (Demo.always 200))).1
  = Raise Offline.unreachable.
Proof.
  by rewrite (create_fakturoid_subject_search_failure Offline.client
                {[ "email" := PyStr "carol@example.com"; "name" := PyStr "Carol" ]}
                (Demo.world (Demo.always 200)) (PyStr "carol@example.com")
                Offline.unreachable Demo.store);
    [| vm_compute | |].
Defined.

(** ** [update_invoice] and [delete_invoice]: the update as an operation *)

Lemma obj_eq (o1 o2 : Obj) :
  class_names o1 = class_names o2 →
  (∀ field, attrs o1 !! field = attrs o2 !! field) →
  o1 = o2.
Proof.
  destruct o1 as [c1 a1], o2 as [c2 a2]. simpl. intros -> Hattrs.
  f_equal. by apply map_eq.
Qed.

(** X20: when no key of [updated_data] is [__dict__], [__class__] or
    [__weakref__], the update loop does not raise and neither adds nor
    removes an attribute: [hasattr] answers for the updated invoice as it
    did for the retrieved one, for every name. *)
Theorem update_loop_keeps_attribute_names
    (updated_data : list (string * PyValue)) (invoice : Obj) :
  Forall (λ item, special_attribute item.1 = false) updated_data →
  ∃ updated,
    update_loop updated_data invoice = Ok updated
    ∧ class_names updated = class_names invoice
    ∧ ∀ name, hasattr updated name = hasattr invoice name.
Proof.
  intros Hordinary.
  destruct (update_loop_ordinary updated_data invoice Hordinary)
    as (updated & Hrun & Hclass & Hhas & _).
  by exists updated.
Qed.

(** X21: when no key of [updated_data] is [__dict__], [__class__] or
    [__weakref__], applying the same update a second time changes nothing
    more. *)
Theorem update_loop_idempotent
    (updated_data : list (string * PyValue)) (invoice updated : Obj) :
  Forall (λ item, special_attribute item.1 = false) updated_data →
  update_loop updated_data invoice = Ok updated →
  update_loop updated_data updated = Ok updated.
Proof.
  intros Hordinary Hrun.
  destruct (update_loop_ordinary updated_data invoice Hordinary)
    as (updated1 & Hrun1 & Hclass1 & Hhas1 & Hattrs1).
  rewrite Hrun in Hrun1. injection Hrun1 as <-.
  destruct (update_loop_ordinary updated_data updated Hordinary)
    as (updated2 & Hrun2 & Hclass2 & Hhas2 & Hattrs2).
  rewrite Hrun2. f_equal. apply obj_eq; [done |].
  intros field. rewrite Hattrs2, Hhas1, Hattrs1.
  destruct (hasattr invoice field); [| done].
  by destruct (dict_of_items updated_data !! field).
Qed.

(** X25: when no key of [updated_data] is [__dict__], [__class__] or
    [__weakref__], the order in which the dict holds its items does not
    show in the result: two walks over the same items (with distinct keys,
    as the items of a [dict] are) leave the same invoice. *)
Theorem update_loop_order_does_not_matter
    (items1 items2 : list (string * PyValue)) (invoice : Obj) :
  NoDup items1.*1 →
  Forall (λ item, special_attribute item.1 = false) items1 →
  items1 ≡ₚ items2 →
  update_loop items1 invoice = update_loop items2 invoice.
Proof.
  intros Hnodup Hordinary Hperm.
  assert (NoDup items2.*1) as Hnodup2 by (by rewrite <- Hperm).
  assert (Forall (λ item, special_attribute item.1 = false) items2) as Hordinary2
    by (by rewrite <- Hperm).
  destruct (update_loop_ordinary items1 invoice Hordinary)
    as (updated1 & -> & Hclass1 & _ & Hattrs1).
  destruct (update_loop_ordinary items2 invoice Hordinary2)
    as (updated2 & -> & Hclass2 & _ & Hattrs2).
  f_equal. apply obj_eq; [congruence |].
  intros field. rewrite Hattrs1, Hattrs2, !dict_of_items_NoDup by done.
  by rewrite (list_to_map_proper items1 items2).
Qed.


Section UpdateDeleteFurther.

Context {St : Type} (fa : Fakturoid St).
Implicit Types (w : World St) (invoice_id : Z) (updated_data : list (string * PyValue)).

(** X22: an update that names no attribute of the invoice (an empty one, or
    one with unknown keys only) changes nothing, and the invoice is saved
    all the same, as it was retrieved. *)
Theorem update_invoice_with_unknown_keys_saves_unchanged
    invoice_id updated_data w invoice s1 :
  fa_invoice fa invoice_id (session w) = (Ok (Some invoice), s1) →
  (∀ field value, (field, value) ∈ updated_data → hasattr invoice field = false) →
  update_invoice fa invoice_id updated_data w
  = call (EvSaveInvoice invoice) (fa_save_invoice fa invoice)
      (after_call (EvInvoice invoice_id) s1 w).
Proof.
  intros Hlookup Hunknown.
  rewrite (update_invoice_found _ _ _ _ invoice s1) by done.
  enough (update_loop updated_data invoice = Ok invoice) as -> by done.
  induction updated_data as [|[field value] updated_data IH]; [done |].
  simpl. rewrite (Hunknown field value) by (apply elem_of_cons; by left).
  apply IH. intros field' value' Hin. apply (Hunknown field' value').
  apply elem_of_cons. by right.
Qed.

(** X23: when the lookup of the invoice itself raises, [update_invoice] and
    [delete_invoice] raise the same exception and call nothing further:
    nothing is saved and nothing is deleted. *)
Theorem update_and_delete_propagate_lookup_failure invoice_id updated_data w e s1 :
  fa_invoice fa invoice_id (session w) = (Raise e, s1) →
  update_invoice fa invoice_id updated_data w
  = (Raise e, after_call (EvInvoice invoice_id) s1 w)
  ∧ delete_invoice fa invoice_id w
    = (Raise e, after_call (EvInvoice invoice_id) s1 w).
Proof.
  intros Hlookup. unfold update_invoice, delete_invoice, bind, call.
  by rewrite Hlookup.
Qed.

(** X24: [delete_invoice] deletes the very object the lookup returned,
    untouched, and the deletion is its only call after the lookup; what it
    returns or raises is what [fa.delete] does. *)
Theorem delete_invoice_deletes_what_it_looked_up invoice_id w invoice s1 :
  fa_invoice fa invoice_id (session w) = (Ok (Some invoice), s1) →
  log (delete_invoice fa invoice_id w).2
  = log w ++ [EvInvoice invoice_id; EvDelete invoice]
  ∧ (delete_invoice fa invoice_id w).1 = (fa_delete fa invoice s1).1
  ∧ session (delete_invoice fa invoice_id w).2 = (fa_delete fa invoice s1).2.
Proof.
  intros Hlookup. rewrite (delete_invoice_found _ _ _ invoice s1) by done.
  unfold call, after_call. simpl.
  destruct (fa_delete fa invoice s1) as [res s2]. simpl.
  by rewrite <- app_assoc.
Qed.


End UpdateDeleteFurther.

Lemma update_loop_keeps_attribute_names_witness :
  ∃ updated,
    update_loop [("note", PyStr "paid"); ("update", PyInt 1); ("colour", PyStr "red")]
      Demo.invoice7 = Ok updated
    ∧ hasattr updated "colour" = false
    ∧ hasattr updated "update" = true.
Proof.
  destruct (update_loop_keeps_attribute_names
              [("note", PyStr "paid"); ("update", PyInt 1); ("colour", PyStr "red")]
              Demo.invoice7) as (updated & Hrun & _ & Hhas).
  - repeat constructor.
  - exists updated. split; [exact Hrun |]. by rewrite !Hhas.
Defined.

Lemma update_loop_idempotent_witness :
  ∃ updated,
    update_loop [("note", PyStr "paid"); ("colour", PyStr "red")] Demo.invoice7
    = Ok updated
    ∧ update_loop [("note", PyStr "paid"); ("colour", PyStr "red")] updated = Ok updated.
Proof.
  eexists. split; [by vm_compute |].
  apply (update_loop_idempotent _ Demo.invoice7); [repeat constructor | by vm_compute].
Defined.

Lemma update_loop_order_does_not_matter_witness :
  update_loop [("note", PyStr "paid"); ("number", PyStr "2024-0008")] Demo.invoice7
  = update_loop [("number", PyStr "2024-0008"); ("note", PyStr "paid")] Demo.invoice7.
Proof.
  apply update_loop_order_does_not_matter.
  - apply (bool_decide_unpack _). by vm_compute.
  - repeat constructor.
  - apply perm_swap.
Defined.

Lemma update_invoice_with_unknown_keys_saves_unchanged_witness :
  (update_invoice Demo.client 7 [("colour", PyStr "red")]
     (Demo.world (Demo.always 200))).1
  = Ok Demo.invoice7.
Proof.
  rewrite (update_invoice_with_unknown_keys_saves_unchanged Demo.client 7
             [("colour", PyStr "red")] (Demo.world (Demo.always 200))
             Demo.invoice7 Demo.store); [done | done |].
  intros field value Hin. apply list_elem_of_singleton in Hin as [= -> ->].
  by vm_compute.
Defined.

Lemma update_and_delete_propagate_lookup_failure_witness :
  (update_invoice Offline.client 7 [] (Demo.world (Demo.always 200))).1
  = Raise Offline.unreachable
  ∧ (delete_invoice Offline.client 7 (Demo.world (Demo.always 200))).1
    = Raise Offline.unreachable.
Proof.
  destruct (update_and_delete_propagate_lookup_failure Offline.client 7 []
              (Demo.world (Demo.always 200)) Offline.unreachable Demo.store eq_refl)
    as [-> ->].
  done.
Defined.

Lemma delete_invoice_deletes_what_it_looked_up_witness :
  log (delete_invoice Demo.client 7 (Demo.world (Demo.always 200))).2
  = [EvInvoice 7; EvDelete Demo.invoice7].
Proof.
  apply (delete_invoice_deletes_what_it_looked_up Demo.client 7
           (Demo.world (Demo.always 200)) Demo.invoice7 Demo.store eq_refl).
Defined.

